(** * Qless canteen backend: order queue, status machine and broadcasts

    A shallow embedding of the order routes ([src/routes/orders.js]), the
    order model ([src/models/Order.js]), the socket module (required as
    [../socket]; [initSocket], [emitQueueUpdate], [emitOrderReady]) and the
    state-changing menu routes, followed by the properties of the order queue.

    Modelling conventions.
    - MongoDB collections: [orders] is a list in insertion (natural) order,
      [menu], [users] and [carts] are finite maps keyed by the document id
      (a cart is keyed by its unique [userId]).
    - Every route handler is one atomic step of the world.  The only detached
      computation of the source, the un-awaited [emitQueueUpdate()], is split
      in two: its synchronous prefix runs inside the handler, the rest runs
      at a later [QueryResolved] event and reads the collection as it is then.
    - What the libraries decide (number arithmetic, [trim], date parsing,
      ObjectId casting) is kept abstract in the class [Platform]. *)

From Stdlib Require Import ZArith List String Ascii Sorted Permutation Lia.
From stdpp Require Import base gmap strings list sorting.

Local Open Scope Z_scope.

(** ** Status enumeration of the order schema *)

Inductive Status := pending | preparing | ready | completed.

#[global] Instance Status_eq_dec : EqDecision Status.
Proof. solve_decision. Defined.

Definition status_name (s : Status) : string :=
  match s with
  | pending => "pending"
  | preparing => "preparing"
  | ready => "ready"
  | completed => "completed"
  end.

(** The enum of the schema, also the list given to [isIn] in the PATCH route. *)
Definition all_statuses : list Status := [pending; preparing; ready; completed].

Definition status_of_string (s : string) : option Status :=
  List.find (fun st => bool_decide (status_name st = s)) all_statuses.

(** [['pending', 'preparing'].includes(order.status)] *)
Definition is_active (s : Status) : bool :=
  match s with
  | pending | preparing => true
  | _ => false
  end.

(** [VALID_TRANSITIONS] of routes/orders.js *)
Definition VALID_TRANSITIONS (s : Status) : list Status :=
  match s with
  | pending => [preparing]
  | preparing => [ready]
  | ready => [completed]
  | completed => []
  end.

(** [allowed.includes(status)] on status names *)
Definition includes (allowed : list Status) (s : string) : bool :=
  existsb (fun a => bool_decide (status_name a = s)) allowed.

(** The double-quote character used inside the messages of the routes. *)
Definition dq : string := String (ascii_of_nat 34) EmptyString.

(** Result of a [findById]: the cast of the id can fail (the promise rejects). *)
Inductive Lookup (A : Type) :=
  | CastError
  | Found (r : option A).
Arguments CastError {A}.
Arguments Found {A} r.

(** ** What the platform decides *)

Class Platform := {
  num : Type;                        (* JavaScript numbers: prices, quantities *)
  num_zero : num;                    (* the literal 0 *)
  num_add : num -> num -> num;       (* a + b *)
  num_mul : num -> num -> num;       (* a * b *)
  isInt_min1 : num -> bool;          (* express-validator isInt({ min: 1 }) *)
  isFloat_min0 : num -> bool;        (* express-validator isFloat({ min: 0 }) *)
  trim : string -> string;           (* String.prototype.trim *)
  parseDate : string -> option Z;    (* new Date(s): ms since epoch, None when invalid *)
  nextDay : Z -> Z;                  (* d.setDate(d.getDate() + 1) *)
  valid_oid : string -> bool;        (* does the string cast to an ObjectId *)
}.

Section Model.
Context `{Platform}.

(** ** Documents *)

(** [orderItemSchema] *)
Record OrderItem := {
  oi_menuItemId : string;
  oi_name : string;
  oi_quantity : num;
  oi_price : num;
}.

(** [orderSchema], with the two fields added by [timestamps: true] *)
Record Order := {
  _id : string;
  userId : option string;
  customerName : string;
  items : list OrderItem;
  totalAmount : num;
  status : Status;
  createdAt : Z;
  updatedAt : Z;
}.

(** [menuItemSchema] *)
Record MenuItem := {
  m_id : string;
  m_name : string;
  m_description : option string;
  m_price : num;
  m_category : string;
  m_isAvailable : bool;
  m_imageUrl : option string;
}.

(** [cartItemSchema] *)
Record CartItem := {
  ci_menuItemId : string;
  ci_quantity : num;
}.

(** The fields of [userSchema] the order routes read. *)
Record User := {
  u_name : string;
  u_phone : string;
}.

(** ** Socket messages *)

Inductive Channel :=
  | ChGlobal                    (* io.emit: every connected socket *)
  | ChOrder (orderId : string)  (* io.to(`order:${orderId}`) *)
  | ChKitchen.                  (* io.to('kitchen') *)

(** One element of [queueData] in [emitQueueUpdate] *)
Record QueueEntry := {
  q_orderId : string;
  q_status : Status;
  q_customerName : string;
  q_queuePosition : nat;
}.

Inductive Payload :=
  | PQueue (queueData : list QueueEntry)
  | PPosition (orderId : string) (st : Status) (queuePosition : nat)
  | PReady (orderId : string).

Record Message := {
  msg_channel : Channel;
  msg_event : string;
  msg_payload : Payload;
}.

(** ** The world: database, clock and socket module state *)

Record World := {
  orders : list Order;
  menu : gmap string MenuItem;
  users : gmap string User;
  carts : gmap string (list CartItem);
  clock : Z;
  (* [let io] of the socket module: [None] until [initSocket] ran; the
     function says, for each message, whether the transport delivers it *)
  io : option (Message -> bool);
  (* every message handed to the transport, oldest first *)
  outbox : list Message;
  (* runs of [emitQueueUpdate] whose query has not resolved yet *)
  in_flight : nat;
}.

Definition set_orders (os : list Order) (w : World) : World :=
  {| orders := os; menu := menu w; users := users w; carts := carts w;
     clock := clock w; io := io w; outbox := outbox w; in_flight := in_flight w |}.

Definition set_menu (m : gmap string MenuItem) (w : World) : World :=
  {| orders := orders w; menu := m; users := users w; carts := carts w;
     clock := clock w; io := io w; outbox := outbox w; in_flight := in_flight w |}.

Definition set_users_carts (us : gmap string User)
    (cs : gmap string (list CartItem)) (w : World) : World :=
  {| orders := orders w; menu := menu w; users := us; carts := cs;
     clock := clock w; io := io w; outbox := outbox w; in_flight := in_flight w |}.

Definition set_clock (t : Z) (w : World) : World :=
  {| orders := orders w; menu := menu w; users := users w; carts := carts w;
     clock := t; io := io w; outbox := outbox w; in_flight := in_flight w |}.

Definition set_io (d : option (Message -> bool)) (w : World) : World :=
  {| orders := orders w; menu := menu w; users := users w; carts := carts w;
     clock := clock w; io := d; outbox := outbox w; in_flight := in_flight w |}.

Definition set_outbox (ms : list Message) (w : World) : World :=
  {| orders := orders w; menu := menu w; users := users w; carts := carts w;
     clock := clock w; io := io w; outbox := ms; in_flight := in_flight w |}.

Definition set_in_flight (n : nat) (w : World) : World :=
  {| orders := orders w; menu := menu w; users := users w; carts := carts w;
     clock := clock w; io := io w; outbox := outbox w; in_flight := n |}.

(** The messages of the outbox that the transport delivered. *)
Definition delivered (w : World) : list Message :=
  match io w with
  | Some deliver => List.filter deliver (outbox w)
  | None => []
  end.

(** ** Queries on the order collection *)

Definition has_id (id : string) (o : Order) : bool := bool_decide (_id o = id).

Definition Order_findById (id : string) (w : World) : Lookup Order :=
  if valid_oid id then Found (List.find (has_id id) (orders w)) else CastError.

Definition MenuItem_findById (id : string) (w : World) : Lookup MenuItem :=
  if valid_oid id then Found (menu w !! id) else CastError.

(** Stable insertion sort; [le x y] says that [x] may stand before [y]. *)
Fixpoint insert_by {A} (le : A -> A -> bool) (x : A) (l : list A) : list A :=
  match l with
  | [] => [x]
  | y :: l' => if le x y then x :: y :: l' else y :: insert_by le x l'
  end.

Definition sort_by {A} (le : A -> A -> bool) (l : list A) : list A :=
  foldr (insert_by le) [] l.

(** [.sort({ createdAt: 1 })] and [.sort({ createdAt: -1 })] *)
Definition created_asc (x y : Order) : bool := createdAt x <=? createdAt y.
Definition created_desc (x y : Order) : bool := createdAt y <=? createdAt x.

(** The documents matching [{ status: { $in: ['pending', 'preparing'] } }] *)
Definition active_set (w : World) : list Order :=
  List.filter (fun o => is_active (status o)) (orders w).

(** [Order.find({ status: { $in: ['pending', 'preparing'] } }).sort({ createdAt: 1 })] *)
Definition active_orders (w : World) : list Order :=
  sort_by created_asc (active_set w).

(** [orderSchema.methods.getQueuePosition]: a [countDocuments] plus one. *)
Definition getQueuePosition (o : Order) (w : World) : nat :=
  let count :=
    length (List.filter
              (fun x => is_active (status x) && (createdAt x <? createdAt o))
              (orders w)) in
  (count + 1)%nat.

(** [Order.create]: the insert is refused when the [_id] index already holds
    the id the driver generated; defaults and timestamps are filled in.  The
    schema validators ([required], [min: 1]) always pass on what the two
    creating routes hand over, and are not modelled. *)
Definition Order_create (new_id : string) (uid : option string)
    (name : string) (its : list OrderItem) (total : num) (w : World)
    : option (Order * World) :=
  match List.find (has_id new_id) (orders w) with
  | Some _ => None
  | None =>
      let o := {| _id := new_id; userId := uid; customerName := trim name;
                  items := its; totalAmount := total; status := pending;
                  createdAt := clock w; updatedAt := clock w |} in
      Some (o, set_orders (orders w ++ [o]) w)
  end.

(** [order.status = status; await order.save()] *)
Definition with_status (s : Status) (t : Z) (o : Order) : Order :=
  {| _id := _id o; userId := userId o; customerName := customerName o;
     items := items o; totalAmount := totalAmount o; status := s;
     createdAt := createdAt o; updatedAt := t |}.

Definition Order_save (o : Order) (w : World) : World :=
  set_orders (map (fun x => if has_id (_id o) x then o else x) (orders w)) w.

(** ** Requests and responses *)

(** What the verification of the [Authorization] header yields. *)
Inductive Token :=
  | NoToken                      (* header missing or not a Bearer token *)
  | BadToken                     (* jwt.verify throws *)
  | AdminToken (role : string)   (* payload { id, username, role } *)
  | UserToken (uid : string).    (* payload { id, phone, type: 'user' } *)

Inductive Body :=
  | BErrors (errors : list string)                       (* { errors: [...] }, by message *)
  | BMessage (message : string)                          (* { message } *)
  | BOrder (order : Order)
  | BOrderPos (order : Order) (queuePosition : option nat)  (* { order, queuePosition } *)
  | BOrders (os : list Order)
  | BMyOrders (os : list (Order * option nat))           (* { ...order, queuePosition } *)
  | BMenuItem (item : MenuItem).

(** [Unhandled]: the promise of the handler rejects and no response is written
    by the handler. *)
Inductive Response :=
  | Json (code : nat) (body : Body)
  | Unhandled.

(** [auth] of middleware/auth.js: [Some r] ends the request with [r]. *)
Definition auth (tok : Token) : option Response :=
  match tok with
  | NoToken => Some (Json 401 (BMessage "Access denied. No token provided."))
  | BadToken => Some (Json 401 (BMessage "Invalid or expired token."))
  | AdminToken _ | UserToken _ => None
  end.

(** [requireRole('admin')], after [auth] *)
Definition requireRole_admin (tok : Token) : option Response :=
  match tok with
  | AdminToken role =>
      if bool_decide (role = "admin") then None
      else Some (Json 403 (BMessage "Forbidden. Insufficient permissions."))
  | _ => Some (Json 403 (BMessage "Forbidden. Insufficient permissions."))
  end.

(** [userAuth]: the user id of the token, or the response that ends the request. *)
Definition userAuth (tok : Token) : Response + string :=
  match tok with
  | NoToken => inl (Json 401 (BMessage "Access denied. No token provided."))
  | BadToken => inl (Json 401 (BMessage "Invalid or expired token."))
  | AdminToken _ =>
      inl (Json 403 (BMessage "This endpoint requires a user token, not an admin token."))
  | UserToken uid => inr uid
  end.

(** ** The socket module *)

(** [io.emit(...)] and [io.to(room).emit(...)]: the message is handed to the
    transport and the call returns nothing; whether the message reaches a
    subscriber is for the transport to decide and is not reported back. *)
Definition publish (m : Message) (w : World) : World :=
  set_outbox (outbox w ++ [m]) w.

(** [activeOrders.map((order, index) => ...)] *)
Definition queue_entry (index : nat) (order : Order) : QueueEntry :=
  {| q_orderId := _id order; q_status := status order;
     q_customerName := customerName order;
     q_queuePosition := (index + 1)%nat |}.

Definition queueData (w : World) : list QueueEntry :=
  imap queue_entry (active_orders w).

Definition position_message (entry : QueueEntry) : Message :=
  {| msg_channel := ChOrder (q_orderId entry); msg_event := "queue:position";
     msg_payload := PPosition (q_orderId entry) (q_status entry)
                              (q_queuePosition entry) |}.

(** The messages of one run of [emitQueueUpdate], in the order of the emits. *)
Definition queue_messages (qd : list QueueEntry) : list Message :=
  [ {| msg_channel := ChGlobal; msg_event := "queue:update";
       msg_payload := PQueue qd |} ]
  ++ map position_message qd
  ++ [ {| msg_channel := ChKitchen; msg_event := "kitchen:queue";
          msg_payload := PQueue qd |} ].

(** [emitQueueUpdate()] as the routes call it, without [await]: the guard
    [if (!io) return] and the start of the query. *)
Definition emitQueueUpdate (w : World) : World :=
  match io w with
  | None => w
  | Some _ => set_in_flight (S (in_flight w)) w
  end.

(** The rest of [emitQueueUpdate], run when its query resolves: the active
    orders are read once and the three kinds of message are emitted. *)
Definition emitQueueUpdate_resume (w : World) : World :=
  match in_flight w with
  | O => w
  | S n =>
      let w0 := set_in_flight n w in
      match io w with
      | None => w0
      | Some _ => foldl (fun acc m => publish m acc) w0 (queue_messages (queueData w))
      end
  end.

(** [emitOrderReady(orderId)] *)
Definition emitOrderReady (orderId : string) (w : World) : World :=
  match io w with
  | None => w
  | Some _ =>
      let w1 := publish {| msg_channel := ChOrder orderId; msg_event := "order:ready";
                           msg_payload := PReady orderId |} w in
      publish {| msg_channel := ChGlobal; msg_event := "queue:update";
                 msg_payload := PQueue [] |} w1
  end.

(** [initSocket(httpServer)] *)
Definition initSocket (deliver : Message -> bool) (w : World) : World :=
  set_io (Some deliver) w.

(** ** routes/orders.js *)

Record ItemReq := {
  r_menuItemId : string;
  r_quantity : num;
}.

Record PostOrderBody := {
  b_customerName : string;
  b_items : list ItemReq;
}.

Definition is_empty (s : string) : bool := bool_decide (s = EmptyString).

(** The validation chains of [POST /]; the result is [errors.array()] by message. *)
Definition validate_post_order (b : PostOrderBody) : list string :=
  (if is_empty (trim (b_customerName b)) then ["Customer name is required"] else [])
  ++ (match b_items b with [] => ["At least one item is required"] | _ => [] end)
  ++ flat_map (fun it => if is_empty (r_menuItemId it)
                         then ["Each item must have a menuItemId"] else [])
              (b_items b)
  ++ flat_map (fun it => if isInt_min1 (r_quantity it) then []
                         else ["Quantity must be at least 1"])
              (b_items b).

Definition not_found_message (id : string) : string :=
  "Menu item " +:+ id +:+ " not found.".

Definition unavailable_message (name : string) : string :=
  dq +:+ name +:+ dq +:+ " is currently unavailable.".

Definition cart_missing_message (id : string) : string :=
  "A cart item (ID: " +:+ id +:+ ") no longer exists. Please refresh your cart.".

Definition cart_unavailable_message (name : string) : string :=
  dq +:+ name +:+ dq
  +:+ " is currently unavailable. Remove it from your cart to continue.".

(** The loop [for (const item of items)] of [POST /]: either the response of
    an early [return], or the final [orderItems] and [totalAmount]. *)
Fixpoint build_order_items (w : World) (its : list ItemReq)
    (orderItems : list OrderItem) (total : num)
    : Response + (list OrderItem * num) :=
  match its with
  | [] => inr (orderItems, total)
  | item :: rest =>
      match MenuItem_findById (r_menuItemId item) w with
      | CastError => inl Unhandled
      | Found None =>
          inl (Json 400 (BMessage (not_found_message (r_menuItemId item))))
      | Found (Some menuItem) =>
          if negb (m_isAvailable menuItem)
          then inl (Json 400 (BMessage (unavailable_message (m_name menuItem))))
          else
            let lineTotal := num_mul (m_price menuItem) (r_quantity item) in
            build_order_items w rest
              (orderItems ++ [ {| oi_menuItemId := m_id menuItem;
                                  oi_name := m_name menuItem;
                                  oi_quantity := r_quantity item;
                                  oi_price := m_price menuItem |} ])
              (num_add total lineTotal)
      end
  end.

(** The loop [for (const cartItem of cart.items)] of [POST /from-cart]; the
    ids stored in a cart are ObjectIds, so the lookup does not cast. *)
Fixpoint build_cart_items (w : World) (its : list CartItem)
    (orderItems : list OrderItem) (total : num)
    : Response + (list OrderItem * num) :=
  match its with
  | [] => inr (orderItems, total)
  | cartItem :: rest =>
      match menu w !! ci_menuItemId cartItem with
      | None =>
          inl (Json 400 (BMessage (cart_missing_message (ci_menuItemId cartItem))))
      | Some menuItem =>
          if negb (m_isAvailable menuItem)
          then inl (Json 400 (BMessage (cart_unavailable_message (m_name menuItem))))
          else
            let lineTotal := num_mul (m_price menuItem) (ci_quantity cartItem) in
            build_cart_items w rest
              (orderItems ++ [ {| oi_menuItemId := m_id menuItem;
                                  oi_name := m_name menuItem;
                                  oi_quantity := ci_quantity cartItem;
                                  oi_price := m_price menuItem |} ])
              (num_add total lineTotal)
      end
  end.

(** [POST /]; [new_id] is the ObjectId the driver generates for the insert. *)
Definition post_order (b : PostOrderBody) (new_id : string) (w : World)
    : Response * World :=
  match validate_post_order b with
  | (_ :: _) as errors => (Json 400 (BErrors errors), w)
  | [] =>
      match build_order_items w (b_items b) [] num_zero with
      | inl r => (r, w)
      | inr (orderItems, total) =>
          match Order_create new_id None (trim (b_customerName b))
                  orderItems total w with
          | None => (Unhandled, w)
          | Some (order, w1) =>
              let queuePosition := getQueuePosition order w1 in
              let w2 := emitQueueUpdate w1 in
              (Json 201 (BOrderPos order (Some queuePosition)), w2)
          end
      end
  end.

(** [GET /] *)
Definition get_orders (tok : Token) (w : World) : Response * World :=
  match auth tok with
  | Some r => (r, w)
  | None => (Json 200 (BOrders (active_orders w)), w)
  end.

(** A query parameter is used when it is truthy: present and not empty. *)
Definition truthy (q : option string) : option string :=
  match q with
  | Some s => if is_empty s then None else Some s
  | None => None
  end.

Definition status_matches (q : option string) (o : Order) : bool :=
  match q with
  | Some s => bool_decide (status_name (status o) = s)
  | None => true
  end.

Definition date_matches (range : option (Z * Z)) (o : Order) : bool :=
  match range with
  | Some (start, stop) => (start <=? createdAt o) && (createdAt o <? stop)
  | None => true
  end.

(** [Order.find(filter).sort({ createdAt: -1 }).limit(200)] of [GET /history] *)
Definition history_orders (st : option string) (range : option (Z * Z))
    (w : World) : list Order :=
  take 200 (sort_by created_desc
              (List.filter (fun o => status_matches st o && date_matches range o)
                           (orders w))).

(** The [createdAt] range of [GET /history]: no range without a [date]
    parameter, the day starting at the parsed date otherwise; [None] when the
    date does not parse and the query is refused. *)
Definition date_range (q_date : option string) : option (option (Z * Z)) :=
  match truthy q_date with
  | None => Some None
  | Some d =>
      match parseDate d with
      | None => None
      | Some start => Some (Some (start, nextDay start))
      end
  end.

(** [GET /history] *)
Definition get_history (tok : Token) (q_status q_date : option string)
    (w : World) : Response * World :=
  match auth tok with
  | Some r => (r, w)
  | None =>
      match date_range q_date with
      | None => (Unhandled, w)
      | Some range =>
          (Json 200 (BOrders (history_orders (truthy q_status) range w)), w)
      end
  end.

(** [isActive ? await order.getQueuePosition() : null] *)
Definition live_position (order : Order) (w : World) : option nat :=
  if is_active (status order) then Some (getQueuePosition order w) else None.

(** [GET /:id] *)
Definition get_order (id : string) (w : World) : Response * World :=
  match Order_findById id w with
  | CastError => (Unhandled, w)
  | Found None => (Json 404 (BMessage "Order not found."), w)
  | Found (Some order) => (Json 200 (BOrderPos order (live_position order w)), w)
  end.

(** The message of a refused transition. *)
Definition allowed_text (allowed : list Status) : string :=
  let joined := String.concat ", " (map status_name allowed) in
  if is_empty joined then "none (order is completed)" else joined.

Definition transition_message (current : Status) (requested : string) : string :=
  "Cannot transition from " +:+ dq +:+ status_name current +:+ dq
  +:+ " to " +:+ dq +:+ requested +:+ dq
  +:+ ". Allowed next status: " +:+ allowed_text (VALID_TRANSITIONS current).

(** [PATCH /:id/status] *)
Definition patch_status (tok : Token) (id : string) (requested : string)
    (w : World) : Response * World :=
  match auth tok with
  | Some r => (r, w)
  | None =>
      match status_of_string requested with
      | None => (Json 400 (BErrors ["Invalid status"]), w)
      | Some st =>
          match Order_findById id w with
          | CastError => (Unhandled, w)
          | Found None => (Json 404 (BMessage "Order not found."), w)
          | Found (Some order) =>
              let allowed := VALID_TRANSITIONS (status order) in
              if negb (includes allowed requested)
              then (Json 400 (BMessage (transition_message (status order) requested)), w)
              else
                let order' := with_status st (clock w) order in
                let w1 := Order_save order' w in
                let w2 := if bool_decide (st = ready)
                          then emitOrderReady (_id order') w1 else w1 in
                let w3 := emitQueueUpdate w2 in
                (Json 200 (BOrder order'), w3)
          end
      end
  end.

(** [cart.items = []; await cart.save()] *)
Definition clear_cart (uid : string) (w : World) : World :=
  set_users_carts (users w) (<[uid := []]> (carts w)) w.

(** [POST /from-cart] *)
Definition post_from_cart (tok : Token) (new_id : string) (w : World)
    : Response * World :=
  match userAuth tok with
  | inl r => (r, w)
  | inr uid =>
      match users w !! uid with
      | None => (Json 404 (BMessage "User not found."), w)
      | Some user =>
          match carts w !! uid with
          | None | Some [] => (Json 400 (BMessage "Your cart is empty."), w)
          | Some cartItems =>
              match build_cart_items w cartItems [] num_zero with
              | inl r => (r, w)
              | inr (orderItems, total) =>
                  match Order_create new_id (Some uid) (u_name user)
                          orderItems total w with
                  | None => (Unhandled, w)
                  | Some (order, w1) =>
                      let queuePosition := getQueuePosition order w1 in
                      let w2 := clear_cart uid w1 in
                      let w3 := emitQueueUpdate w2 in
                      (Json 201 (BOrderPos order (Some queuePosition)), w3)
                  end
              end
          end
      end
  end.

(** [Order.find(filter).sort({ createdAt: -1 }).limit(50)] of [GET /my] *)
Definition my_orders (uid : string) (st : option string) (w : World) : list Order :=
  take 50 (sort_by created_desc
             (List.filter (fun o => bool_decide (userId o = Some uid)
                                    && status_matches st o)
                          (orders w))).

(** [GET /my].  (The router registers this route after [GET /:id], whose
    pattern also matches the path [/my]; dispatch by path is not modelled.) *)
Definition get_my (tok : Token) (q_status : option string) (w : World)
    : Response * World :=
  match userAuth tok with
  | inl r => (r, w)
  | inr uid =>
      (Json 200 (BMyOrders (map (fun order => (order, live_position order w))
                                (my_orders uid (truthy q_status) w))), w)
  end.

(** ** The writing menu routes *)

Record MenuBody := {
  pm_name : string;
  pm_description : option string;
  pm_price : num;
  pm_category : string;
  pm_isAvailable : option bool;
  pm_imageUrl : option string;
}.

(** The entries of [req.body] that [PUT /:id] keeps ([allowed]). *)
Record MenuUpdates := {
  up_name : option string;
  up_description : option string;
  up_price : option num;
  up_category : option string;
  up_isAvailable : option bool;
  up_imageUrl : option string;
}.

Definition is_category (c : string) : bool :=
  bool_decide (c ∈ ["Main"; "Snack"; "Drink"; "Beverage"; "Dessert"]).

Definition validate_post_menu (b : MenuBody) : list string :=
  (if is_empty (trim (pm_name b)) then ["Name is required"] else [])
  ++ (if isFloat_min0 (pm_price b) then [] else ["Price must be a non-negative number"])
  ++ (if is_category (pm_category b) then [] else ["Invalid category"]).

Definition validate_put_menu (u : MenuUpdates) : list string :=
  (match up_price u with
   | Some p => if isFloat_min0 p then [] else ["Price must be a non-negative number"]
   | None => []
   end)
  ++ (match up_category u with
      | Some c => if is_category c then [] else ["Invalid category"]
      | None => []
      end).

(** [POST /api/menu] *)
Definition post_menu (tok : Token) (b : MenuBody) (new_id : string) (w : World)
    : Response * World :=
  match auth tok with
  | Some r => (r, w)
  | None =>
      match requireRole_admin tok with
      | Some r => (r, w)
      | None =>
          match validate_post_menu b with
          | (_ :: _) as errors => (Json 400 (BErrors errors), w)
          | [] =>
              match menu w !! new_id with
              | Some _ => (Unhandled, w)
              | None =>
                  let item := {| m_id := new_id; m_name := trim (pm_name b);
                                 m_description := trim <$> pm_description b;
                                 m_price := pm_price b;
                                 m_category := pm_category b;
                                 m_isAvailable := default true (pm_isAvailable b);
                                 m_imageUrl := trim <$> pm_imageUrl b |} in
                  (Json 201 (BMenuItem item), set_menu (<[new_id := item]> (menu w)) w)
              end
          end
      end
  end.

(** The [$set] of [findByIdAndUpdate(id, updates, ...)] *)
Definition apply_updates (u : MenuUpdates) (item : MenuItem) : MenuItem :=
  {| m_id := m_id item;
     m_name := default (m_name item) (trim <$> up_name u);
     m_description := match up_description u with
                      | Some d => Some (trim d)
                      | None => m_description item
                      end;
     m_price := default (m_price item) (up_price u);
     m_category := default (m_category item) (up_category u);
     m_isAvailable := default (m_isAvailable item) (up_isAvailable u);
     m_imageUrl := match up_imageUrl u with
                   | Some d => Some (trim d)
                   | None => m_imageUrl item
                   end |}.

(** [runValidators] checks the updated paths only: a [name] that is empty
    after trimming fails [required]. *)
Definition update_invalid (u : MenuUpdates) : bool :=
  match up_name u with
  | Some s => is_empty (trim s)
  | None => false
  end.

(** [PUT /api/menu/:id]; when the update validators fail the promise rejects. *)
Definition put_menu (tok : Token) (id : string) (u : MenuUpdates) (w : World)
    : Response * World :=
  match auth tok with
  | Some r => (r, w)
  | None =>
      match requireRole_admin tok with
      | Some r => (r, w)
      | None =>
          match validate_put_menu u with
          | (_ :: _) as errors => (Json 400 (BErrors errors), w)
          | [] =>
              match MenuItem_findById id w with
              | CastError => (Unhandled, w)
              | Found None => (Json 404 (BMessage "Menu item not found."), w)
              | Found (Some old) =>
                  if update_invalid u then (Unhandled, w)
                  else
                    let item := apply_updates u old in
                    (Json 200 (BMenuItem item), set_menu (<[id := item]> (menu w)) w)
              end
          end
      end
  end.

(** [DELETE /api/menu/:id] *)
Definition delete_menu (tok : Token) (id : string) (w : World)
    : Response * World :=
  match auth tok with
  | Some r => (r, w)
  | None =>
      match requireRole_admin tok with
      | Some r => (r, w)
      | None =>
          match MenuItem_findById id w with
          | CastError => (Unhandled, w)
          | Found None => (Json 404 (BMessage "Menu item not found."), w)
          | Found (Some _) =>
              (Json 200 (BMessage "Menu item deleted."), set_menu (delete id (menu w)) w)
          end
      end
  end.

(** ** Requests, events and runs *)

Inductive Request :=
  | PostOrder (b : PostOrderBody) (new_id : string)
  | GetOrders (tok : Token)
  | GetHistory (tok : Token) (q_status q_date : option string)
  | GetOrder (id : string)
  | PatchStatus (tok : Token) (id : string) (requested : string)
  | PostFromCart (tok : Token) (new_id : string)
  | GetMy (tok : Token) (q_status : option string)
  | PostMenu (tok : Token) (b : MenuBody) (new_id : string)
  | PutMenu (tok : Token) (id : string) (u : MenuUpdates)
  | DeleteMenu (tok : Token) (id : string).

Definition handle (r : Request) (w : World) : Response * World :=
  match r with
  | PostOrder b new_id => post_order b new_id w
  | GetOrders tok => get_orders tok w
  | GetHistory tok s d => get_history tok s d w
  | GetOrder id => get_order id w
  | PatchStatus tok id requested => patch_status tok id requested w
  | PostFromCart tok new_id => post_from_cart tok new_id w
  | GetMy tok s => get_my tok s w
  | PostMenu tok b new_id => post_menu tok b new_id w
  | PutMenu tok id u => put_menu tok id u w
  | DeleteMenu tok id => delete_menu tok id w
  end.

(** What can happen to the world.  The users and cart routes write the
    [users] and [carts] collections only; they are covered by one event that
    may replace both. *)
Inductive Event :=
  | Tick (ms : N)                              (* the clock advances *)
  | InitSocket (deliver : Message -> bool)     (* initSocket(server) in app.js *)
  | Call (r : Request)                         (* a request is served *)
  | QueryResolved                              (* a pending emitQueueUpdate goes on *)
  | UsersCarts (us : gmap string User) (cs : gmap string (list CartItem)).

Definition step (e : Event) (w : World) : World :=
  match e with
  | Tick ms => set_clock (clock w + Z.of_N ms) w
  | InitSocket deliver => initSocket deliver w
  | Call r => snd (handle r w)
  | QueryResolved => emitQueueUpdate_resume w
  | UsersCarts us cs => set_users_carts us cs w
  end.

(** The world after the events of [es], the first event first. *)
Definition run (es : list Event) (w : World) : World :=
  foldl (fun acc e => step e acc) w es.

(** The [_id] index of the order collection: ids are unique. *)
Definition ids_unique (w : World) : Prop :=
  NoDup (map _id (orders w)).

(** The collection is in creation order with non-decreasing stamps, and no
    order was stamped later than the present clock. *)
Definition chronological (w : World) : Prop :=
  StronglySorted Z.le (map createdAt (orders w))
  /\ Forall (fun t => t <= clock w) (map createdAt (orders w)).

(** The world of a freshly started process with an empty database. *)
Definition empty_world (t : Z) : World :=
  {| orders := []; menu := ∅; users := ∅; carts := ∅; clock := t;
     io := None; outbox := []; in_flight := O |}.

(** ** Notions used to state the properties *)

(** The rank as the specification words it, the creation key of the source
    being [createdAt]:
    [rank(order, activeOrders) = 1 + |{o ∈ activeOrders : o.creationKey < order.creationKey}|] *)
Definition rank (o : Order) (O : list Order) : nat :=
  (1 + length (List.filter (fun x => (createdAt x <? createdAt o)%Z) O))%nat.


(** The messages handed to the transport between the worlds [w] and [w']. *)
Definition published_by (w w' : World) : list Message :=
  drop (length (outbox w)) (outbox w').

(** Two worlds hold the same data: they differ at most in the state of the
    socket module (transport handle, outbox, pending broadcasts). *)
Definition same_data (w1 w2 : World) : Prop :=
  orders w1 = orders w2 /\ menu w1 = menu w2 /\ users w1 = users w2
  /\ carts w1 = carts w2 /\ clock w1 = clock w2.

(** No two orders of the collection carry the same creation key. *)
Definition creation_keys_unique (w : World) : Prop :=
  NoDup (map createdAt (orders w)).

(** How far along [pending → preparing → ready → completed] a status is. *)
Definition stage (s : Status) : nat :=
  match s with
  | pending => 0
  | preparing => 1
  | ready => 2
  | completed => 3
  end.

(** [o'] is a later state of the document [o]: only the status, which may
    have moved forward, and [updatedAt] can differ. *)
Definition evolves (o o' : Order) : Prop :=
  _id o' = _id o /\ userId o' = userId o /\ customerName o' = customerName o
  /\ items o' = items o /\ totalAmount o' = totalAmount o
  /\ createdAt o' = createdAt o
  /\ (stage (status o) <= stage (status o'))%nat.

(** The four effects a handler can have on the world: none; a new menu; a
    new order under a fresh id, stamped with the clock, with the broadcast
    started (and possibly other carts); a legal move of the status of a stored
    order, with the ready signal when it applies and the broadcast started. *)
Inductive Outcome (w : World) : World -> Prop :=
  | out_read : Outcome w w
  | out_menu (m : gmap string MenuItem) : Outcome w (set_menu m w)
  | out_created (o : Order) (cs : gmap string (list CartItem)) :
      List.find (has_id (_id o)) (orders w) = None ->
      createdAt o = clock w ->
      Outcome w (emitQueueUpdate
                   (set_users_carts (users w) cs (set_orders (orders w ++ [o]) w)))
  | out_moved (order : Order) (st : Status) :
      List.find (has_id (_id order)) (orders w) = Some order ->
      st ∈ VALID_TRANSITIONS (status order) ->
      Outcome w (emitQueueUpdate
                   ((if bool_decide (st = ready)
                     then emitOrderReady (_id order) else fun w' => w')
                      (Order_save (with_status st (clock w) order) w))).


(** A response that creates or returns nothing: a 4xx status, or a handler
    whose promise rejected. *)
Definition refused (r : Response) : Prop :=
  match r with
  | Json code _ => (400 <= code < 500)%nat
  | Unhandled => True
  end.

(** A reference to a catalog entry that is missing or marked unavailable. *)
Definition bad_reference (w : World) (id : string) : Prop :=
  match menu w !! id with
  | Some menuItem => m_isAvailable menuItem = false
  | None => True
  end.

(** The sum the order routes accumulate, over stored line items, with the
    operations and the operand order of the source. *)
Definition items_total (its : list OrderItem) : num :=
  foldl (fun total it => num_add total (num_mul (oi_price it) (oi_quantity it)))
        num_zero its.

(** A stored line item is the snapshot of a catalog entry. *)
Definition snapshot_of (w : World) (id : string) (quantity : num)
    (it : OrderItem) : Prop :=
  exists menuItem, menu w !! id = Some menuItem
    /\ m_isAvailable menuItem = true
    /\ oi_menuItemId it = m_id menuItem
    /\ oi_name it = m_name menuItem
    /\ oi_price it = m_price menuItem
    /\ oi_quantity it = quantity.

End Model.

(** * The rest of the routes

    The cart routes ([src/routes/cart.js]), the reading menu routes, the
    account deletion of the users routes, and the order in which the orders
    router registers its routes. *)

Section Routes.
Context `{Platform}.

(** ** The reading menu routes *)

(** The documents of the menu collection. *)
Definition menu_docs (w : World) : list MenuItem :=
  snd <$> map_to_list (menu w).

(** [.sort({ category: 1, name: 1 })], strings compared byte by byte. *)
Definition menu_le (x y : MenuItem) : bool :=
  match String.compare (m_category x) (m_category y) with
  | Lt => true
  | Gt => false
  | Eq => String.leb (m_name x) (m_name y)
  end.

(** [GET /api/menu]: the body of the response, which is public. *)
Definition get_menu (w : World) : list MenuItem :=
  sort_by menu_le (List.filter m_isAvailable (menu_docs w)).

(** [GET /api/menu/all] *)
Definition get_menu_all (tok : Token) (w : World) : Response + list MenuItem :=
  match auth tok with
  | Some r => inl r
  | None => inr (sort_by menu_le (menu_docs w))
  end.

(** [GET /api/menu/:id] *)
Definition get_menu_item (id : string) (w : World) : Response :=
  match MenuItem_findById id w with
  | CastError => Unhandled
  | Found None => Json 404 (BMessage "Menu item not found.")
  | Found (Some item) => Json 200 (BMenuItem item)
  end.

(** ** routes/cart.js *)

(** One element of [populated] in [buildCartResponse] *)
Record CartLine := {
  cl_menuItem : MenuItem;
  cl_quantity : num;
  cl_lineTotal : num;
}.

(** What [buildCartResponse] returns, without the cart's own id and dates *)
Record CartView := {
  cv_userId : string;
  cv_items : list CartLine;
  cv_grandTotal : num;
  cv_itemCount : num;
}.

Inductive CartReply :=
  | Plain (r : Response)         (* an error list, a message, or no response *)
  | View (v : CartView)          (* res.json(await buildCartResponse(cart)) *)
  | Cleared.                     (* { message: 'Cart cleared.', grandTotal: 0, ... } *)

Section Cart.
(** [parseFloat(x.toFixed(2))] *)
Variable toFixed2 : num -> num.

(** The loop of [buildCartResponse]: [populated], [grandTotal], [itemCount]. *)
Fixpoint populate (w : World) (its : list CartItem) (populated : list CartLine)
    (grandTotal itemCount : num) : list CartLine * num * num :=
  match its with
  | [] => (populated, grandTotal, itemCount)
  | item :: rest =>
      match menu w !! ci_menuItemId item with
      | None => populate w rest populated grandTotal itemCount
      | Some menuItem =>
          let lineTotal := num_mul (m_price menuItem) (ci_quantity item) in
          populate w rest
            (populated ++ [ {| cl_menuItem := menuItem;
                               cl_quantity := ci_quantity item;
                               cl_lineTotal := lineTotal |} ])
            (num_add grandTotal lineTotal)
            (num_add itemCount (ci_quantity item))
      end
  end.

Definition buildCartResponse (uid : string) (its : list CartItem) (w : World)
    : CartView :=
  let '(populated, grandTotal, itemCount) := populate w its [] num_zero num_zero in
  {| cv_userId := uid; cv_items := populated;
     cv_grandTotal := toFixed2 grandTotal; cv_itemCount := itemCount |}.

(** [cart.save()] *)
Definition save_cart (uid : string) (its : list CartItem) (w : World) : World :=
  set_users_carts (users w) (<[uid := its]> (carts w)) w.

(** [cart.items.find((i) => i.menuItemId.toString() === id)] *)
Definition in_cart (id : string) (it : CartItem) : bool :=
  bool_decide (ci_menuItemId it = id).

(** The found element is changed in place: the first match. *)
Fixpoint change_first (id : string) (f : CartItem -> CartItem)
    (its : list CartItem) : list CartItem :=
  match its with
  | [] => []
  | it :: rest =>
      if in_cart id it then f it :: rest else it :: change_first id f rest
  end.

Definition add_quantity (q : num) (it : CartItem) : CartItem :=
  {| ci_menuItemId := ci_menuItemId it; ci_quantity := num_add (ci_quantity it) q |}.

Definition set_quantity (q : num) (it : CartItem) : CartItem :=
  {| ci_menuItemId := ci_menuItemId it; ci_quantity := q |}.

(** [GET /api/cart] *)
Definition cart_get (tok : Token) (w : World) : CartReply * World :=
  match userAuth tok with
  | inl r => (Plain r, w)
  | inr uid =>
      match carts w !! uid with
      | None => (Plain (Json 404 (BMessage "Cart not found.")), w)
      | Some its => (View (buildCartResponse uid its w), w)
      end
  end.

Definition validate_cart_add (menuItemId : string) (quantity : num) : list string :=
  (if is_empty menuItemId then ["menuItemId is required"] else [])
  ++ (if isInt_min1 quantity then [] else ["Quantity must be at least 1"]).

(** [POST /api/cart/items] *)
Definition cart_add (tok : Token) (menuItemId : string) (quantity : num)
    (w : World) : CartReply * World :=
  match userAuth tok with
  | inl r => (Plain r, w)
  | inr uid =>
      match validate_cart_add menuItemId quantity with
      | (_ :: _) as errors => (Plain (Json 400 (BErrors errors)), w)
      | [] =>
          match MenuItem_findById menuItemId w with
          | CastError => (Plain Unhandled, w)
          | Found None => (Plain (Json 404 (BMessage "Menu item not found.")), w)
          | Found (Some menuItem) =>
              if negb (m_isAvailable menuItem)
              then (Plain (Json 400 (BMessage (unavailable_message (m_name menuItem)))), w)
              else
                (* Cart.create({ userId, items: [] }) when there is none *)
                let its := default [] (carts w !! uid) in
                let its' :=
                  match List.find (in_cart menuItemId) its with
                  | Some _ => change_first menuItemId (add_quantity quantity) its
                  | None => its ++ [ {| ci_menuItemId := menuItemId;
                                        ci_quantity := quantity |} ]
                  end in
                let w' := save_cart uid its' w in
                (View (buildCartResponse uid its' w'), w')
          end
      end
  end.

(** [PUT /api/cart/items/:menuItemId] *)
Definition cart_update (tok : Token) (menuItemId : string) (quantity : num)
    (w : World) : CartReply * World :=
  match userAuth tok with
  | inl r => (Plain r, w)
  | inr uid =>
      if negb (isInt_min1 quantity)
      then (Plain (Json 400 (BErrors ["Quantity must be at least 1"])), w)
      else
        match carts w !! uid with
        | None => (Plain (Json 404 (BMessage "Cart not found.")), w)
        | Some its =>
            match List.find (in_cart menuItemId) its with
            | None =>
                (Plain (Json 404 (BMessage "Item not found in cart. Add it first.")), w)
            | Some _ =>
                let its' := change_first menuItemId (set_quantity quantity) its in
                let w' := save_cart uid its' w in
                (View (buildCartResponse uid its' w'), w')
            end
        end
  end.

(** [DELETE /api/cart/items/:menuItemId] *)
Definition cart_remove (tok : Token) (menuItemId : string) (w : World)
    : CartReply * World :=
  match userAuth tok with
  | inl r => (Plain r, w)
  | inr uid =>
      match carts w !! uid with
      | None => (Plain (Json 404 (BMessage "Cart not found.")), w)
      | Some its =>
          let its' := List.filter (fun i => negb (in_cart menuItemId i)) its in
          if (length its' =? length its)%nat
          then (Plain (Json 404 (BMessage "Item not found in cart.")), w)
          else
            let w' := save_cart uid its' w in
            (View (buildCartResponse uid its' w'), w')
      end
  end.

(** [DELETE /api/cart] *)
Definition cart_clear (tok : Token) (w : World) : CartReply * World :=
  match userAuth tok with
  | inl r => (Plain r, w)
  | inr uid =>
      match carts w !! uid with
      | None => (Plain (Json 404 (BMessage "Cart not found.")), w)
      | Some _ => (Cleared, save_cart uid [] w)
      end
  end.

End Cart.

(** ** Account deletion *)

(** [DELETE /api/users/me]: the user and the cart are deleted, whether or not
    they exist. *)
Definition delete_me (tok : Token) (w : World) : Response * World :=
  match userAuth tok with
  | inl r => (r, w)
  | inr uid =>
      (Json 200 (BMessage "Account deleted successfully."),
       set_users_carts (delete uid (users w)) (delete uid (carts w)) w)
  end.

(** ** The orders router *)

Inductive Method := GET | POST | PATCH | PUT | DELETE.

(** A segment of a route pattern: a literal, or a parameter such as [:id]. *)
Inductive Segment :=
  | Lit (s : string)
  | Param.

Inductive OrdersRoute :=
  | r_post_order | r_get_orders | r_get_history | r_get_order
  | r_patch_status | r_post_from_cart | r_get_my.

#[global] Instance Method_eq_dec : EqDecision Method.
Proof. solve_decision. Defined.

#[global] Instance OrdersRoute_eq_dec : EqDecision OrdersRoute.
Proof. solve_decision. Defined.

(** The routes of routes/orders.js in the order of their registration. *)
Definition orders_router : list (Method * list Segment * OrdersRoute) :=
  [ (POST, [], r_post_order);
    (GET, [], r_get_orders);
    (GET, [Lit "history"], r_get_history);
    (GET, [Param], r_get_order);
    (PATCH, [Param; Lit "status"], r_patch_status);
    (POST, [Lit "from-cart"], r_post_from_cart);
    (GET, [Lit "my"], r_get_my) ].

(** Routes match without regard to letter case. *)
Definition lower_ascii (c : ascii) : ascii :=
  let n := nat_of_ascii c in
  if ((65 <=? n) && (n <=? 90))%nat then ascii_of_nat (n + 32) else c.

Fixpoint lower (s : string) : string :=
  match s with
  | EmptyString => EmptyString
  | String c s' => String (lower_ascii c) (lower s')
  end.

(** A parameter takes one segment of the path, which is never empty. *)
Definition segment_matches (p : Segment) (s : string) : bool :=
  match p with
  | Lit l => bool_decide (lower l = lower s)
  | Param => negb (is_empty s)
  end.

Fixpoint path_matches (ps : list Segment) (path : list string) : bool :=
  match ps, path with
  | [], [] => true
  | p :: ps', s :: path' => segment_matches p s && path_matches ps' path'
  | _, _ => false
  end.

(** The route that serves a request: the first registered one that matches. *)
Definition dispatch (m : Method) (path : list string) : option OrdersRoute :=
  snd <$> List.find (fun r => bool_decide (fst (fst r) = m)
                              && path_matches (snd (fst r)) path)
                    orders_router.

(** ** Notions used to state the properties of these routes *)

(** The effect of any cart route on the world: at most the carts change. *)
Definition only_carts_change (w w' : World) : Prop :=
  exists cs, w' = set_users_carts (users w) cs w.


(** What a cart route does to the world: nothing, or one cart saved, the
    cart of the customer the token names. *)
Inductive CartEffect (tok : Token) (w : World) : World -> Prop :=
  | cart_same : CartEffect tok w w
  | cart_saved (uid : string) (its : list CartItem) :
      userAuth tok = inr uid -> CartEffect tok w (save_cart uid its w).

(** A message is on the channel its content belongs to: a queue list under
    its event name on the global or the kitchen channel, a position or a
    ready signal on the channel of the very order it is about. *)
Definition well_routed (m : Message) : Prop :=
  match msg_channel m, msg_payload m with
  | ChGlobal, PQueue _ => msg_event m = "queue:update"
  | ChKitchen, PQueue _ => msg_event m = "kitchen:queue"
  | ChOrder id, PPosition orderId _ _ =>
      orderId = id /\ msg_event m = "queue:position"
  | ChOrder id, PReady orderId => orderId = id /\ msg_event m = "order:ready"
  | _, _ => False
  end.

(** The event is not a call of [initSocket]. *)
Definition not_init (e : Event) : Prop :=
  match e with
  | InitSocket _ => False
  | _ => True
  end.


End Routes.

(** ** A concrete platform and sample data

    Numbers are integers, [trim] strips ASCII white space, an ObjectId is a
    string of 24 hexadecimal digits and a day has 86400000 ms. *)

Definition is_space (c : ascii) : bool :=
  let n := nat_of_ascii c in
  ((9 <=? n) && (n <=? 13))%nat || (n =? 32)%nat.

Fixpoint trim_start (s : string) : string :=
  match s with
  | String c s' => if is_space c then trim_start s' else s
  | EmptyString => EmptyString
  end.

Definition ascii_trim (s : string) : string :=
  String.rev (trim_start (String.rev (trim_start s))).

Definition is_hex (c : ascii) : bool :=
  let n := nat_of_ascii c in
  ((48 <=? n) && (n <=? 57) || (97 <=? n) && (n <=? 102)
   || (65 <=? n) && (n <=? 70))%nat.

Definition hex24 (s : string) : bool :=
  (String.length s =? 24)%nat && forallb is_hex (list_ascii_of_string s).

Definition demo_platform : Platform :=
  {| num := Z; num_zero := 0; num_add := Z.add; num_mul := Z.mul;
     isInt_min1 := fun q => 1 <=? q;
     isFloat_min0 := fun p => 0 <=? p;
     trim := ascii_trim;
     parseDate := fun _ => None;
     nextDay := fun t => t + 86400000;
     valid_oid := hex24 |}.

Module Demo.
Section Samples.
#[local] Existing Instance demo_platform.

Definition id_A : string := "65a000000000000000000001".
Definition id_B : string := "65a000000000000000000002".
Definition id_C : string := "65a000000000000000000003".
Definition id_tea : string := "65b000000000000000000001".
Definition id_user : string := "65c000000000000000000001".

Definition tea : MenuItem :=
  {| m_id := id_tea; m_name := "Tea"; m_description := None; m_price := 50;
     m_category := "Drink"; m_isAvailable := true; m_imageUrl := None |}.

Definition two_teas : CartItem := {| ci_menuItemId := id_tea; ci_quantity := 2 |}.

(** An initialised process with one menu item, one user and their cart. *)
Definition shop : World :=
  {| orders := []; menu := {[ id_tea := tea ]};
     users := {[ id_user := {| u_name := "Cy"; u_phone := "0123456789" |} ]};
     carts := {[ id_user := [ two_teas ] ]};
     clock := 1000; io := Some (fun _ => true); outbox := []; in_flight := O |}.

Definition one_tea (name : string) : PostOrderBody :=
  {| b_customerName := name;
     b_items := [ {| r_menuItemId := id_tea; r_quantity := 1 |} ] |}.

Definition staff : Token := AdminToken "kitchen".
Definition boss : Token := AdminToken "admin".

(** Orders A and B are placed within one reading of the clock. *)
Definition two_in_one_tick : list Event :=
  [ Call (PostOrder (one_tea "Ann") id_A); Call (PostOrder (one_tea "Bob") id_B) ].

(** Three orders placed at three different readings of the clock. *)
Definition three_spaced : list Event :=
  [ Call (PostOrder (one_tea "Ann") id_A); Tick 5;
    Call (PostOrder (one_tea "Bob") id_B); Tick 5;
    Call (PostOrder (one_tea "Cat") id_C) ].

(** The shop after Ann's order, and after the kitchen started on it. *)
Definition ann_waiting : World := run [ Call (PostOrder (one_tea "Ann") id_A) ] shop.

Definition ann_preparing : World :=
  run [ Call (PatchStatus staff id_A "preparing") ] ann_waiting.

Definition order_A (st : Status) : Order :=
  {| _id := id_A; userId := None; customerName := "Ann";
     items := [ {| oi_menuItemId := id_tea; oi_name := "Tea";
                   oi_quantity := 1; oi_price := 50 |} ];
     totalAmount := 50; status := st; createdAt := 1000; updatedAt := 1000 |}.

(** The same shop with the socket module never initialised, and with a
    transport that delivers nothing. *)
Definition shop_offline : World := set_io None shop.
Definition shop_lossy : World := set_io (Some (fun _ => false)) shop.

(** The price of tea changes, then tea leaves the menu. *)
Definition tea_repriced_then_deleted : list Event :=
  [ Call (PutMenu boss id_tea
            {| up_name := None; up_description := None; up_price := Some 75;
               up_category := None; up_isAvailable := None; up_imageUrl := None |});
    Call (DeleteMenu boss id_tea) ].

(** Amounts of the samples are whole numbers, which [toFixed(2)] keeps. *)
Definition whole (amount : num) : num := amount.

Definition id_cake : string := "65b000000000000000000002".

Definition cake : MenuItem :=
  {| m_id := id_cake; m_name := "Cake"; m_description := None; m_price := 120;
     m_category := "Dessert"; m_isAvailable := true; m_imageUrl := None |}.

Definition new_cake : MenuBody :=
  {| pm_name := " Cake "; pm_description := None; pm_price := 120;
     pm_category := "Dessert"; pm_isAvailable := None; pm_imageUrl := None |}.

Definition price_75 : MenuUpdates :=
  {| up_name := None; up_description := None; up_price := Some 75;
     up_category := None; up_isAvailable := None; up_imageUrl := None |}.


(** The customer of the shop, and the order their cart gives. *)
Definition cy : Token := UserToken id_user.

Definition order_cy : Order :=
  {| _id := id_A; userId := Some id_user; customerName := "Cy";
     items := [ {| oi_menuItemId := id_tea; oi_name := "Tea";
                   oi_quantity := 2; oi_price := 50 |} ];
     totalAmount := 100; status := pending; createdAt := 1000;
     updatedAt := 1000 |}.

(** The shop after tea left the menu: the cart still names it. *)
Definition shop_without_tea : World := run tea_repriced_then_deleted shop.

End Samples.
End Demo.

(** * Properties *)

Create Rewrite HintDb frame.

Section Properties.
Context `{Platform}.

(** ** Insertion sort *)

Section Sorting.
Context {A : Type} (le : A -> A -> bool).
Hypothesis le_total : forall x y, le x y = false -> le y x = true.
Hypothesis le_trans : forall x y z, le x y = true -> le y z = true -> le x z = true.

Let R (x y : A) : Prop := le x y = true.

Lemma insert_by_perm x l : insert_by le x l ≡ₚ x :: l.
Proof using Type.
  induction l as [|y l IH]; simpl; [done|].
  destruct (le x y); [done|]. rewrite IH. apply Permutation_swap.
Qed.

Lemma sort_by_perm l : sort_by le l ≡ₚ l.
Proof using Type.
  induction l as [|x l IH]; simpl; [done|].
  rewrite insert_by_perm. by rewrite IH.
Qed.

Lemma sort_by_length l : length (sort_by le l) = length l.
Proof using Type. by rewrite sort_by_perm. Qed.

Lemma insert_by_sorted x l :
  StronglySorted R l -> StronglySorted R (insert_by le x l).
Proof using le_total le_trans.
  induction l as [|y l IH]; intros Hs; simpl.
  - repeat constructor.
  - apply StronglySorted_inv in Hs as [Hs Hy].
    destruct (le x y) eqn:Hxy.
    + constructor; [by constructor|].
      constructor; [done|].
      eapply Forall_impl; [exact Hy|]. intros z Hz. by eapply le_trans.
    + constructor; [by apply IH|].
      rewrite insert_by_perm. constructor; [|done]. by apply le_total.
Qed.

Lemma sort_by_sorted l : StronglySorted R (sort_by le l).
Proof using le_total le_trans.
  induction l as [|x l IH]; simpl; [constructor|]. by apply insert_by_sorted.
Qed.

(** The sort is stable: it returns a sorted list as it is. *)
Lemma sort_by_id l : StronglySorted R l -> sort_by le l = l.
Proof using Type.
  induction l as [|x l IH]; intros Hs; simpl; [done|].
  apply StronglySorted_inv in Hs as [Hs Hx]. rewrite (IH Hs).
  destruct l as [|y l]; [done|]. simpl.
  apply Forall_inv in Hx. unfold R in Hx. by rewrite Hx.
Qed.

End Sorting.

Lemma created_asc_total (x y : Order) :
  created_asc x y = false -> created_asc y x = true.
Proof. unfold created_asc. lia. Qed.

Lemma created_asc_trans (x y z : Order) :
  created_asc x y = true -> created_asc y z = true -> created_asc x z = true.
Proof. unfold created_asc. lia. Qed.

Lemma created_desc_total (x y : Order) :
  created_desc x y = false -> created_desc y x = true.
Proof. unfold created_desc. lia. Qed.

Lemma created_desc_trans (x y z : Order) :
  created_desc x y = true -> created_desc y z = true -> created_desc x z = true.
Proof. unfold created_desc. lia. Qed.

(** ** The socket functions leave the database alone *)

Lemma orders_publish m w : orders (publish m w) = orders w.
Proof. reflexivity. Qed.

Lemma orders_foldl_publish ms w :
  orders (foldl (fun acc m => publish m acc) w ms) = orders w.
Proof. revert w. induction ms as [|m ms IH]; intros w; simpl; [done|]. by rewrite IH. Qed.

Lemma outbox_foldl_publish ms w :
  outbox (foldl (fun acc m => publish m acc) w ms) = outbox w ++ ms.
Proof.
  revert w. induction ms as [|m ms IH]; intros w; simpl.
  - by rewrite app_nil_r.
  - rewrite IH. simpl. by rewrite <- app_assoc.
Qed.

Lemma orders_emitQueueUpdate w : orders (emitQueueUpdate w) = orders w.
Proof. unfold emitQueueUpdate. by destruct (io w). Qed.

Lemma orders_emitOrderReady id w : orders (emitOrderReady id w) = orders w.
Proof. unfold emitOrderReady. by destruct (io w). Qed.

Lemma clock_emitQueueUpdate w : clock (emitQueueUpdate w) = clock w.
Proof. unfold emitQueueUpdate. by destruct (io w). Qed.

Lemma clock_emitOrderReady id w : clock (emitOrderReady id w) = clock w.
Proof. unfold emitOrderReady. by destruct (io w). Qed.

Lemma orders_resume w : orders (emitQueueUpdate_resume w) = orders w.
Proof.
  unfold emitQueueUpdate_resume. destruct (in_flight w); [done|].
  destruct (io w); [|done]. by rewrite orders_foldl_publish.
Qed.

Lemma outbox_emitQueueUpdate w : outbox (emitQueueUpdate w) = outbox w.
Proof. unfold emitQueueUpdate. by destruct (io w). Qed.

#[local] Hint Rewrite orders_emitQueueUpdate orders_emitOrderReady
  clock_emitQueueUpdate clock_emitOrderReady outbox_emitQueueUpdate
  orders_resume : frame.

(** ** Lookups by id *)

Lemma has_id_true id o : has_id id o = true <-> _id o = id.
Proof. unfold has_id. by rewrite bool_decide_eq_true. Qed.

Lemma find_has_id_Some id (l : list Order) o :
  List.find (has_id id) l = Some o -> _id o = id /\ o ∈ l.
Proof.
  intros Hf. apply find_some in Hf as [Hin Hid].
  split; [by apply has_id_true | by apply list_elem_of_In].
Qed.

(** After [save], the document found under the id is the saved one. *)
Lemma find_after_save id (l : list Order) o o' :
  List.find (has_id id) l = Some o -> _id o' = id ->
  List.find (has_id id) (map (fun x => if has_id (_id o') x then o' else x) l)
  = Some o'.
Proof.
  intros Hf Hid. rewrite Hid. induction l as [|x l IH]; simpl in *; [done|].
  destruct (has_id id x) eqn:Hx.
  - simpl. assert (has_id id o' = true) as -> by by apply has_id_true. done.
  - rewrite Hx. by apply IH.
Qed.

Lemma status_of_string_name s : status_of_string (status_name s) = Some s.
Proof. by destruct s. Qed.

Lemma status_name_inj a b : status_name a = status_name b -> a = b.
Proof. by destruct a, b. Qed.

Lemma includes_name allowed s :
  includes allowed (status_name s) = true <-> s ∈ allowed.
Proof.
  unfold includes. rewrite existsb_exists. split.
  - intros (a & Hin & Ha). apply bool_decide_eq_true in Ha.
    apply status_name_inj in Ha as <-. by apply list_elem_of_In.
  - intros Hin. exists s. split; [by apply list_elem_of_In|].
    by apply bool_decide_eq_true.
Qed.

(** ** The status machine *)

(** The text after "Allowed next status:" lists the legal next statuses, or
    says that there is none. *)
Lemma allowed_text_cases a :
  allowed_text (VALID_TRANSITIONS a)
  = match VALID_TRANSITIONS a with
    | [] => "none (order is completed)"
    | l => String.concat ", " (map status_name l)
    end.
Proof. by destruct a. Qed.

(** C3. For an authenticated request on an existing order with current status
    [a] and a requested status [b]: the transition table is
    pending→{preparing}, preparing→{ready}, ready→{completed}, completed→{};
    when [b] is in the table entry of [a] the route answers 200 with the
    order whose status is now [b], and that order is what the collection
    holds; in every other case it answers 400 with a message naming [a] and
    the legal next statuses (or saying there is none), and the world is
    unchanged. *)
Theorem transition_exactly_when_allowed tok id (order : Order) (b : Status) w :
  auth tok = None ->
  Order_findById id w = Found (Some order) ->
  (VALID_TRANSITIONS pending = [preparing]
   /\ VALID_TRANSITIONS preparing = [ready]
   /\ VALID_TRANSITIONS ready = [completed]
   /\ VALID_TRANSITIONS completed = [])
  /\ (b ∈ VALID_TRANSITIONS (status order) ->
      let order' := with_status b (clock w) order in
      fst (patch_status tok id (status_name b) w) = Json 200 (BOrder order')
      /\ status order' = b
      /\ Order_findById id (snd (patch_status tok id (status_name b) w))
         = Found (Some order'))
  /\ (b ∉ VALID_TRANSITIONS (status order) ->
      patch_status tok id (status_name b) w
      = (Json 400 (BMessage
           ("Cannot transition from " +:+ dq +:+ status_name (status order) +:+ dq
            +:+ " to " +:+ dq +:+ status_name b +:+ dq
            +:+ ". Allowed next status: "
            +:+ match VALID_TRANSITIONS (status order) with
                | [] => "none (order is completed)"
                | l => String.concat ", " (map status_name l)
                end)), w)).
Proof.
  intros Hauth Hfind. split; [done|].
  unfold patch_status. rewrite Hauth, status_of_string_name, Hfind.
  unfold Order_findById in Hfind.
  destruct (valid_oid id) eqn:Hvalid; [|done].
  injection Hfind as Hfind.
  destruct (find_has_id_Some _ _ _ Hfind) as [Hid _].
  split.
  - intros Hb. apply includes_name in Hb. rewrite Hb. simpl.
    split; [done|]. split; [done|].
    unfold Order_findById. rewrite Hvalid. f_equal.
    rewrite orders_emitQueueUpdate.
    assert (forall w1, orders (if bool_decide (b = ready)
                               then emitOrderReady (_id order) w1 else w1)
                       = orders w1) as ->.
    { intros w1. destruct (bool_decide (b = ready)); [|done].
      apply orders_emitOrderReady. }
    unfold Order_save. simpl orders.
    by apply (find_after_save id (orders w) order (with_status b (clock w) order)).
  - intros Hb. destruct (includes _ _) eqn:Hinc.
    + by apply includes_name in Hinc.
    + simpl. unfold transition_message. by rewrite allowed_text_cases.
Qed.

(** ** Queue positions *)

Lemma filter_andb {A} (f g : A -> bool) l :
  List.filter (fun x => f x && g x) l = List.filter g (List.filter f l).
Proof.
  induction l as [|x l IH]; simpl; [done|].
  destruct (f x); simpl; [|done]. destruct (g x); by rewrite IH.
Qed.


(** [getQueuePosition] computes the rank of the specification. *)
Lemma getQueuePosition_rank o w : getQueuePosition o w = rank o (active_set w).
Proof.
  unfold getQueuePosition, rank, active_set. rewrite filter_andb. lia.
Qed.



Lemma StronglySorted_mono {A} (R1 R2 : A -> A -> Prop) l :
  (forall x y, R1 x y -> R2 x y) -> StronglySorted R1 l -> StronglySorted R2 l.
Proof.
  intros HR. induction 1 as [|x l _ IH Hx]; constructor; [done|].
  eapply Forall_impl; [exact Hx|]. intros y. apply HR.
Qed.

Lemma active_orders_sorted w :
  StronglySorted (fun x y => createdAt x <= createdAt y) (active_orders w).
Proof.
  eapply StronglySorted_mono;
    [|apply (sort_by_sorted created_asc created_asc_total created_asc_trans)].
  intros x y Hxy. unfold created_asc in Hxy. lia.
Qed.





(** ** Broadcasts *)

Lemma published_by_app w w' ms :
  outbox w' = outbox w ++ ms -> published_by w w' = ms.
Proof. intros Heq. unfold published_by. rewrite Heq. by rewrite drop_app_length. Qed.




(** ** Signalling readiness *)

(** C4, amended. With the transport initialised, a transition into [ready]
    publishes, before the regular snapshot is scheduled, exactly two
    messages: one [order:ready] on the channel of that order, and one
    [queue:update] with an empty list on the global channel.  Nothing is
    published on the kitchen channel. *)
Theorem ready_signal tok id (order : Order) deliver w :
  auth tok = None -> io w = Some deliver ->
  Order_findById id w = Found (Some order) ->
  status order = preparing ->
  let w' := snd (patch_status tok id "ready" w) in
  fst (patch_status tok id "ready" w)
  = Json 200 (BOrder (with_status ready (clock w) order))
  /\ published_by w w'
     = [ {| msg_channel := ChOrder (_id order); msg_event := "order:ready";
            msg_payload := PReady (_id order) |};
         {| msg_channel := ChGlobal; msg_event := "queue:update";
            msg_payload := PQueue [] |} ]
  /\ Forall (fun m => msg_channel m <> ChKitchen) (published_by w w')
  /\ in_flight w' = S (in_flight w).
Proof.
  intros Hauth Hio Hfind Hst. cbv zeta.
  unfold patch_status. rewrite Hauth. simpl status_of_string.
  rewrite Hfind, Hst. simpl.
  unfold emitQueueUpdate, emitOrderReady. simpl. rewrite Hio. simpl.
  rewrite Hio. simpl.
  split; [done|].
  unfold published_by. simpl. rewrite <- app_assoc. simpl.
  rewrite drop_app_length.
  split; [done|]. split; [|done].
  repeat constructor; simpl; discriminate.
Qed.

(** ** Listings *)


Lemma sort_desc_sorted (l : list Order) :
  StronglySorted (fun x y => createdAt y <= createdAt x) (sort_by created_desc l).
Proof.
  eapply StronglySorted_mono;
    [|apply (sort_by_sorted created_desc created_desc_total created_desc_trans)].
  intros x y Hxy. unfold created_desc in Hxy. lia.
Qed.


(** ** The transport does not reach the data *)

Lemma same_data_refl w : same_data w w.
Proof. by repeat split. Qed.

Lemma same_data_sym w1 w2 : same_data w1 w2 -> same_data w2 w1.
Proof. intros (?&?&?&?&?). by repeat split. Qed.

Lemma same_data_trans w1 w2 w3 :
  same_data w1 w2 -> same_data w2 w3 -> same_data w1 w3.
Proof. intros (?&?&?&?&?) (?&?&?&?&?). repeat split; congruence. Qed.

Lemma same_data_emitQueueUpdate w : same_data (emitQueueUpdate w) w.
Proof. unfold emitQueueUpdate. destruct (io w); by repeat split. Qed.

Lemma same_data_emitOrderReady id w : same_data (emitOrderReady id w) w.
Proof. unfold emitOrderReady. destruct (io w); by repeat split. Qed.

Lemma same_data_resume w : same_data (emitQueueUpdate_resume w) w.
Proof.
  unfold emitQueueUpdate_resume. destruct (in_flight w); [apply same_data_refl|].
  destruct (io w); [|by repeat split].
  generalize (queue_messages (queueData w)). intros ms.
  assert (forall w0, same_data (foldl (fun acc m => publish m acc) w0 ms) w0) as Hf.
  { induction ms as [|m ms IH]; intros w0; simpl; [apply same_data_refl|].
    eapply same_data_trans; [apply IH|]. by repeat split. }
  eapply same_data_trans; [apply Hf|]. by repeat split.
Qed.

Lemma build_order_items_same w1 w2 its acc total :
  menu w1 = menu w2 ->
  build_order_items w1 its acc total = build_order_items w2 its acc total.
Proof.
  intros Hm. revert acc total. induction its as [|it its IH]; intros acc total;
    simpl; [done|].
  unfold MenuItem_findById. rewrite Hm.
  destruct (valid_oid _); [|done].
  destruct (menu w2 !! _) as [m|]; [|done].
  destruct (m_isAvailable m); simpl; [apply IH|done].
Qed.

Lemma build_cart_items_same w1 w2 its acc total :
  menu w1 = menu w2 ->
  build_cart_items w1 its acc total = build_cart_items w2 its acc total.
Proof.
  intros Hm. revert acc total. induction its as [|it its IH]; intros acc total;
    simpl; [done|].
  rewrite Hm. destruct (menu w2 !! _) as [m|]; [|done].
  destruct (m_isAvailable m); simpl; [apply IH|done].
Qed.

Lemma post_order_same b new_id w1 w2 :
  same_data w1 w2 ->
  fst (post_order b new_id w1) = fst (post_order b new_id w2)
  /\ same_data (snd (post_order b new_id w1)) (snd (post_order b new_id w2)).
Proof.
  intros Hs. pose proof Hs as (Ho & Hm & Hu & Hc & Hk).
  unfold post_order. destruct (validate_post_order b); [|done].
  rewrite (build_order_items_same w1 w2) by done.
  destruct (build_order_items w2 _ _ _) as [r|[its total]]; [done|].
  unfold Order_create. rewrite Ho, Hk.
  destruct (List.find _ _); [done|]. simpl. split.
  - unfold getQueuePosition. simpl. by rewrite ?Ho.
  - eapply same_data_trans; [apply same_data_emitQueueUpdate|].
    eapply same_data_trans; [|apply same_data_sym, same_data_emitQueueUpdate].
    repeat split; simpl; congruence.
Qed.

Lemma patch_status_same tok id requested w1 w2 :
  same_data w1 w2 ->
  fst (patch_status tok id requested w1) = fst (patch_status tok id requested w2)
  /\ same_data (snd (patch_status tok id requested w1))
               (snd (patch_status tok id requested w2)).
Proof.
  intros Hs. pose proof Hs as (Ho & Hm & Hu & Hc & Hk).
  unfold patch_status. destruct (auth tok); [done|].
  destruct (status_of_string requested) as [st|]; [|done].
  unfold Order_findById. rewrite Ho. destruct (valid_oid id); [|done].
  destruct (List.find _ _) as [order|]; [|done].
  destruct (negb _); [done|]. simpl. rewrite Hk. split; [done|].
  eapply same_data_trans; [apply same_data_emitQueueUpdate|].
  eapply same_data_trans; [|apply same_data_sym, same_data_emitQueueUpdate].
  destruct (bool_decide (st = ready)).
  - eapply same_data_trans; [apply same_data_emitOrderReady|].
    eapply same_data_trans; [|apply same_data_sym, same_data_emitOrderReady].
    repeat split; simpl; congruence.
  - repeat split; simpl; congruence.
Qed.

Lemma post_from_cart_same tok new_id w1 w2 :
  same_data w1 w2 ->
  fst (post_from_cart tok new_id w1) = fst (post_from_cart tok new_id w2)
  /\ same_data (snd (post_from_cart tok new_id w1))
               (snd (post_from_cart tok new_id w2)).
Proof.
  intros Hs. pose proof Hs as (Ho & Hm & Hu & Hc & Hk).
  unfold post_from_cart. destruct (userAuth tok) as [r|uid]; [done|].
  rewrite Hu, Hc. destruct (users w2 !! uid) as [user|]; [|done].
  destruct (carts w2 !! uid) as [[|ci cis]|]; [done| |done].
  rewrite (build_cart_items_same w1 w2) by done.
  destruct (build_cart_items w2 _ _ _) as [r|[its total]]; [done|].
  unfold Order_create. rewrite Ho, Hk.
  destruct (List.find _ _); [done|]. simpl. split.
  - unfold getQueuePosition. simpl. by rewrite ?Ho.
  - eapply same_data_trans; [apply same_data_emitQueueUpdate|].
    eapply same_data_trans; [|apply same_data_sym, same_data_emitQueueUpdate].
    repeat split; simpl; congruence.
Qed.

Lemma handle_same r w1 w2 :
  same_data w1 w2 ->
  fst (handle r w1) = fst (handle r w2)
  /\ same_data (snd (handle r w1)) (snd (handle r w2)).
Proof.
  intros Hs. destruct r; simpl.
  - by apply post_order_same.
  - pose proof Hs as (Ho & Hm & Hu & Hc & Hk).
    unfold get_orders. destruct (auth tok); [done|]. simpl.
    unfold active_orders, active_set. by rewrite Ho.
  - pose proof Hs as (Ho & Hm & Hu & Hc & Hk).
    unfold get_history. destruct (auth tok); [done|].
    destruct (date_range q_date); [|done]. simpl.
    unfold history_orders. by rewrite Ho.
  - pose proof Hs as (Ho & Hm & Hu & Hc & Hk).
    unfold get_order, Order_findById. rewrite Ho.
    destruct (valid_oid id); [|done].
    destruct (List.find _ _); [|done]. simpl.
    unfold live_position, getQueuePosition. by rewrite Ho.
  - by apply patch_status_same.
  - by apply post_from_cart_same.
  - pose proof Hs as (Ho & Hm & Hu & Hc & Hk).
    unfold get_my. destruct (userAuth tok); [done|]. simpl.
    unfold my_orders, live_position, getQueuePosition. by rewrite Ho.
  - pose proof Hs as (Ho & Hm & Hu & Hc & Hk).
    unfold post_menu. destruct (auth tok); [done|].
    destruct (requireRole_admin tok); [done|].
    destruct (validate_post_menu b); [|done].
    rewrite Hm. destruct (menu w2 !! new_id); [done|].
    repeat split; simpl; congruence.
  - pose proof Hs as (Ho & Hm & Hu & Hc & Hk).
    unfold put_menu. destruct (auth tok); [done|].
    destruct (requireRole_admin tok); [done|].
    destruct (validate_put_menu u); [|done].
    unfold MenuItem_findById. rewrite Hm. destruct (valid_oid id); [|done].
    destruct (menu w2 !! id); [|done].
    destruct (update_invalid u); [done|].
    repeat split; simpl; congruence.
  - pose proof Hs as (Ho & Hm & Hu & Hc & Hk).
    unfold delete_menu. destruct (auth tok); [done|].
    destruct (requireRole_admin tok); [done|].
    unfold MenuItem_findById. rewrite Hm. destruct (valid_oid id); [|done].
    destruct (menu w2 !! id); [|done].
    repeat split; simpl; congruence.
Qed.


(** C9. The response of a request and the data it leaves behind do not
    depend on the socket module: two worlds with the same collections and
    clock, whatever their transport handle (absent, or delivering any subset
    of the messages), outbox and pending broadcasts, give the same response
    and the same data, and the detached broadcast that follows leaves the
    data as the handler left it. *)
Theorem mutation_independent_of_transport r w1 w2 :
  same_data w1 w2 ->
  fst (handle r w1) = fst (handle r w2)
  /\ same_data (snd (handle r w1)) (snd (handle r w2))
  /\ same_data (emitQueueUpdate_resume (snd (handle r w1))) (snd (handle r w2)).
Proof.
  intros Hs. destruct (handle_same r w1 w2 Hs) as [Hr Hd].
  split; [done|]. split; [done|].
  eapply same_data_trans; [apply same_data_resume|done].
Qed.

(** ** Refused creations *)

Lemma build_order_items_bad w its acc total :
  Exists (fun it => bad_reference w (r_menuItemId it)) its ->
  exists r, build_order_items w its acc total = inl r /\ refused r.
Proof.
  intros Hex. revert acc total.
  induction its as [|it its IH]; intros acc total; [by apply Exists_nil in Hex|].
  simpl. unfold MenuItem_findById.
  destruct (valid_oid (r_menuItemId it)); [|by exists Unhandled].
  destruct (menu w !! r_menuItemId it) as [m|] eqn:Hm.
  - destruct (m_isAvailable m) eqn:Hav; simpl.
    + apply Exists_cons in Hex as [Hbad|Hex]; [|by apply IH].
      unfold bad_reference in Hbad. rewrite Hm in Hbad. congruence.
    + eexists. split; [done|]. simpl. lia.
  - eexists. split; [done|]. simpl. lia.
Qed.

Lemma build_cart_items_bad w its acc total :
  Exists (fun it => bad_reference w (ci_menuItemId it)) its ->
  exists r, build_cart_items w its acc total = inl r /\ refused r.
Proof.
  intros Hex. revert acc total.
  induction its as [|it its IH]; intros acc total; [by apply Exists_nil in Hex|].
  simpl. destruct (menu w !! ci_menuItemId it) as [m|] eqn:Hm.
  - destruct (m_isAvailable m) eqn:Hav; simpl.
    + apply Exists_cons in Hex as [Hbad|Hex]; [|by apply IH].
      unfold bad_reference in Hbad. rewrite Hm in Hbad. congruence.
    + eexists. split; [done|]. simpl. lia.
  - eexists. split; [done|]. simpl. lia.
Qed.

Lemma validate_post_order_empty b :
  b_items b = [] -> validate_post_order b <> [].
Proof.
  intros Hb. unfold validate_post_order. rewrite Hb. simpl.
  destruct (is_empty _); simpl; discriminate.
Qed.

(** C8. [POST /] with an empty item list, or with an item whose catalog entry
    is missing or unavailable, and [POST /from-cart] with no cart, an empty
    cart, or a cart item whose catalog entry is missing or unavailable, are
    refused and leave the world exactly as it was: no order is stored, the
    cart is not cleared, nothing is published. *)
Theorem creation_refused_wholesale b new_id tok uid w :
  userAuth tok = inr uid ->
  ((b_items b = []
    \/ Exists (fun it => bad_reference w (r_menuItemId it)) (b_items b)) ->
   refused (fst (post_order b new_id w)) /\ snd (post_order b new_id w) = w)
  /\ ((carts w !! uid = None \/ carts w !! uid = Some []
       \/ exists cartItems, carts w !! uid = Some cartItems
            /\ Exists (fun it => bad_reference w (ci_menuItemId it)) cartItems) ->
      refused (fst (post_from_cart tok new_id w))
      /\ snd (post_from_cart tok new_id w) = w).
Proof.
  intros Huser. split.
  - intros Hbad. unfold post_order.
    destruct (validate_post_order b) as [|e errs] eqn:Hv.
    + destruct Hbad as [Hempty|Hex].
      { by apply validate_post_order_empty in Hempty. }
      destruct (build_order_items_bad w (b_items b) [] num_zero Hex)
        as (r & -> & Hr). done.
    + simpl. split; [lia|done].
  - intros Hbad. unfold post_from_cart. rewrite Huser.
    destruct (users w !! uid) as [user|]; [|simpl; split; [lia|done]].
    destruct Hbad as [->|[->|(cis & -> & Hex)]]; try (simpl; split; [lia|done]).
    destruct cis as [|ci cis]; [simpl; split; [lia|done]|].
    destruct (build_cart_items_bad w (ci :: cis) [] num_zero Hex)
      as (r & -> & Hr). done.
Qed.


(** ** Line items and totals *)

Lemma build_order_items_ok w its acc total items' total' :
  build_order_items w its acc total = inr (items', total') ->
  exists new, items' = acc ++ new
    /\ Forall2 (fun it oi => snapshot_of w (r_menuItemId it) (r_quantity it) oi)
               its new
    /\ total' = foldl (fun t oi => num_add t (num_mul (oi_price oi) (oi_quantity oi)))
                      total new.
Proof.
  revert acc total. induction its as [|it its IH]; intros acc total Hb; simpl in Hb.
  - injection Hb as <- <-. exists []. by rewrite app_nil_r.
  - unfold MenuItem_findById in Hb.
    destruct (valid_oid (r_menuItemId it)); [|done].
    destruct (menu w !! r_menuItemId it) as [m|] eqn:Hm; [|done].
    destruct (m_isAvailable m) eqn:Hav; [|done]. simpl in Hb.
    apply IH in Hb as (new & -> & Hall & ->).
    eexists (_ :: new). rewrite <- app_assoc. split; [done|]. split; [|done].
    constructor; [|done]. exists m. by repeat split.
Qed.

Lemma build_cart_items_ok w its acc total items' total' :
  build_cart_items w its acc total = inr (items', total') ->
  exists new, items' = acc ++ new
    /\ Forall2 (fun it oi => snapshot_of w (ci_menuItemId it) (ci_quantity it) oi)
               its new
    /\ total' = foldl (fun t oi => num_add t (num_mul (oi_price oi) (oi_quantity oi)))
                      total new.
Proof.
  revert acc total. induction its as [|it its IH]; intros acc total Hb; simpl in Hb.
  - injection Hb as <- <-. exists []. by rewrite app_nil_r.
  - destruct (menu w !! ci_menuItemId it) as [m|] eqn:Hm; [|done].
    destruct (m_isAvailable m) eqn:Hav; [|done]. simpl in Hb.
    apply IH in Hb as (new & -> & Hall & ->).
    eexists (_ :: new). rewrite <- app_assoc. split; [done|]. split; [|done].
    constructor; [|done]. exists m. by repeat split.
Qed.

(** An early [return] of either loop is a refusal. *)
Lemma build_order_items_inl w its acc total r :
  build_order_items w its acc total = inl r -> refused r.
Proof.
  revert acc total. induction its as [|it its IH]; intros acc total Hb;
    simpl in Hb; [done|].
  unfold MenuItem_findById in Hb.
  destruct (valid_oid (r_menuItemId it)); [|by injection Hb as <-].
  destruct (menu w !! r_menuItemId it) as [m|];
    [|injection Hb as <-; simpl; lia].
  destruct (m_isAvailable m); simpl in Hb; [by eapply IH|].
  injection Hb as <-. simpl. lia.
Qed.

Lemma build_cart_items_inl w its acc total r :
  build_cart_items w its acc total = inl r -> refused r.
Proof.
  revert acc total. induction its as [|it its IH]; intros acc total Hb;
    simpl in Hb; [done|].
  destruct (menu w !! ci_menuItemId it) as [m|];
    [|injection Hb as <-; simpl; lia].
  destruct (m_isAvailable m); simpl in Hb; [by eapply IH|].
  injection Hb as <-. simpl. lia.
Qed.

Lemma refused_not_201 b : ~ refused (Json 201 b).
Proof. simpl. lia. Qed.

(** What a successful [POST /] stores and answers. *)
Lemma post_order_created b new_id w o q :
  fst (post_order b new_id w) = Json 201 (BOrderPos o q) ->
  orders (snd (post_order b new_id w)) = orders w ++ [o]
  /\ List.find (has_id new_id) (orders w) = None
  /\ _id o = new_id /\ status o = pending /\ createdAt o = clock w
  /\ totalAmount o = items_total (items o)
  /\ Forall2 (fun it oi => snapshot_of w (r_menuItemId it) (r_quantity it) oi)
             (b_items b) (items o).
Proof.
  unfold post_order. destruct (validate_post_order b); [|done].
  destruct (build_order_items w _ _ _) as [r|[its total]] eqn:Hb.
  { simpl. intros ->. apply build_order_items_inl in Hb.
    by apply refused_not_201 in Hb. }
  apply build_order_items_ok in Hb as (new & -> & Hall & ->).
  unfold Order_create. destruct (List.find _ _) eqn:Hf; [done|].
  simpl. intros [= <- _]. rewrite orders_emitQueueUpdate. simpl.
  by repeat split.
Qed.


(** What a successful [POST /from-cart] stores and answers. *)
Lemma post_from_cart_created tok new_id w o q :
  fst (post_from_cart tok new_id w) = Json 201 (BOrderPos o q) ->
  orders (snd (post_from_cart tok new_id w)) = orders w ++ [o]
  /\ List.find (has_id new_id) (orders w) = None
  /\ _id o = new_id /\ status o = pending /\ createdAt o = clock w
  /\ totalAmount o = items_total (items o)
  /\ exists uid cartItems, userAuth tok = inr uid
       /\ carts w !! uid = Some cartItems
       /\ Forall2 (fun it oi => snapshot_of w (ci_menuItemId it) (ci_quantity it) oi)
                  cartItems (items o).
Proof.
  unfold post_from_cart. destruct (userAuth tok) as [r|uid] eqn:Hu.
  { simpl. intros ->. by destruct tok. }
  destruct (users w !! uid) as [user|]; [|done].
  destruct (carts w !! uid) as [[|ci cis]|] eqn:Hc; [done| |done].
  destruct (build_cart_items w _ _ _) as [r|[its total]] eqn:Hb.
  { simpl. intros ->. apply build_cart_items_inl in Hb.
    by apply refused_not_201 in Hb. }
  apply build_cart_items_ok in Hb as (new & -> & Hall & ->).
  unfold Order_create. destruct (List.find _ _) eqn:Hf; [done|].
  simpl. intros [= <- _]. rewrite orders_emitQueueUpdate. simpl.
  repeat split; try done. by exists uid, (ci :: cis).
Qed.

(** ** How the order collection changes *)

Lemma stage_next a b : b ∈ VALID_TRANSITIONS a -> (stage a <= stage b)%nat.
Proof.
  destruct a; simpl; intros Hb;
    repeat (apply elem_of_cons in Hb as [->|Hb]); simpl; try lia;
    by apply elem_of_nil in Hb.
Qed.


Lemma evolves_refl o : evolves o o.
Proof. by repeat split. Qed.

Lemma evolves_trans o1 o2 o3 : evolves o1 o2 -> evolves o2 o3 -> evolves o1 o3.
Proof.
  intros (?&?&?&?&?&?&?) (?&?&?&?&?&?&?). repeat split; try congruence. lia.
Qed.

Lemma Forall2_evolves_refl (l : list Order) : Forall2 evolves l l.
Proof. induction l; constructor; [apply evolves_refl|done]. Qed.

Lemma Forall2_evolves_trans (l1 l2 l3 : list Order) :
  Forall2 evolves l1 l2 -> Forall2 evolves l2 l3 -> Forall2 evolves l1 l3.
Proof.
  intros H12. revert l3. induction H12 as [|x y l1 l2 Hxy _ IH]; intros l3 H23.
  - by apply Forall2_nil_inv_l in H23 as ->.
  - apply Forall2_cons_inv_l in H23 as (z & l3' & Hyz & H23 & ->).
    constructor; [by eapply evolves_trans|by apply IH].
Qed.

Lemma Forall2_evolves_ids (l l' : list Order) :
  Forall2 evolves l l' -> map _id l' = map _id l.
Proof.
  induction 1 as [|x y l l' Hxy _ IH]; simpl; [done|].
  destruct Hxy as (-> & _). by rewrite IH.
Qed.

Lemma Forall2_evolves_stamps (l l' : list Order) :
  Forall2 evolves l l' -> map createdAt l' = map createdAt l.
Proof.
  induction 1 as [|x y l l' Hxy _ IH]; simpl; [done|].
  destruct Hxy as (_&_&_&_&_&->&_). by rewrite IH.
Qed.

Lemma NoDup_ids_eq (l : list Order) x y :
  NoDup (map _id l) -> x ∈ l -> y ∈ l -> _id x = _id y -> x = y.
Proof.
  induction l as [|z l IH]; intros Hnd Hx Hy Hid; [by apply elem_of_nil in Hx|].
  simpl in Hnd. apply NoDup_cons in Hnd as [Hz Hnd].
  apply elem_of_cons in Hx as [->|Hx]; apply elem_of_cons in Hy as [->|Hy].
  - done.
  - exfalso. apply Hz. rewrite Hid.
    change (_id y ∈ _id <$> l). by apply list_elem_of_fmap_2.
  - exfalso. apply Hz. rewrite <- Hid.
    change (_id x ∈ _id <$> l). by apply list_elem_of_fmap_2.
  - by apply IH.
Qed.

(** [save] of a legal transition, in a collection with unique ids. *)
Lemma save_evolves (l : list Order) order st t :
  NoDup (map _id l) -> order ∈ l -> st ∈ VALID_TRANSITIONS (status order) ->
  Forall2 evolves l
    (map (fun x => if has_id (_id (with_status st t order)) x
                   then with_status st t order else x) l).
Proof.
  intros Hnd Hin Hst. simpl _id.
  assert (forall x, x ∈ l -> evolves x (if has_id (_id order) x
                                       then with_status st t order else x)) as Hx.
  { intros x Hxl. destruct (has_id (_id order) x) eqn:Hid; [|apply evolves_refl].
    apply has_id_true in Hid.
    assert (x = order) as -> by by eapply NoDup_ids_eq.
    repeat split; simpl. by apply stage_next. }
  clear Hnd Hin. induction l as [|x l IH]; simpl; constructor.
  - apply Hx. by left.
  - apply IH. intros y Hy. apply Hx. by right.
Qed.

Lemma find_None_not_in id (l : list Order) :
  List.find (has_id id) l = None -> id ∉ map _id l.
Proof.
  intros Hf Hin. change (id ∈ _id <$> l) in Hin.
  apply list_elem_of_fmap in Hin as (o & -> & Ho).
  apply list_elem_of_In in Ho.
  pose proof (find_none _ _ Hf o Ho) as Hn.
  unfold has_id in Hn. by rewrite bool_decide_eq_false in Hn.
Qed.

(** Every handler has one of the four effects. *)
Lemma handle_outcome r w : Outcome w (snd (handle r w)).
Proof.
  destruct r; simpl.
  - unfold post_order. destruct (validate_post_order b); [|constructor].
    destruct (build_order_items w _ _ _) as [r|[its total]]; [constructor|].
    unfold Order_create. destruct (List.find _ _) eqn:Hf; [constructor|].
    simpl. by apply (out_created w _ (carts w)).
  - unfold get_orders. destruct (auth tok); constructor.
  - unfold get_history. destruct (auth tok); [constructor|].
    destruct (date_range q_date); constructor.
  - unfold get_order. destruct (Order_findById id w) as [|[o|]]; constructor.
  - unfold patch_status. destruct (auth tok); [constructor|].
    destruct (status_of_string requested) as [st|] eqn:Hst; [|constructor].
    unfold Order_findById. destruct (valid_oid id); [|constructor].
    destruct (List.find _ _) as [order|] eqn:Hf; [|constructor].
    destruct (negb _) eqn:Hinc; [constructor|].
    apply negb_false_iff in Hinc. simpl.
    assert (requested = status_name st) as ->.
    { unfold status_of_string in Hst. apply find_some in Hst as [_ Hst'].
      by apply bool_decide_eq_true in Hst'. }
    apply includes_name in Hinc.
    pose proof (find_has_id_Some _ _ _ Hf) as [<- _].
    pose proof (out_moved w order st Hf Hinc) as Hout.
    by destruct (bool_decide (st = ready)).
  - unfold post_from_cart. destruct (userAuth tok) as [r|uid]; [constructor|].
    destruct (users w !! uid) as [user|]; [|constructor].
    destruct (carts w !! uid) as [[|ci cis]|]; [constructor| |constructor].
    destruct (build_cart_items w _ _ _) as [r|[its total]]; [constructor|].
    unfold Order_create. destruct (List.find _ _) eqn:Hf; [constructor|].
    simpl. by apply (out_created w _ (<[uid:=[]]> (carts w))).
  - unfold get_my. destruct (userAuth tok); constructor.
  - unfold post_menu. destruct (auth tok); [constructor|].
    destruct (requireRole_admin tok); [constructor|].
    destruct (validate_post_menu b); [|constructor].
    destruct (menu w !! new_id); constructor.
  - unfold put_menu. destruct (auth tok); [constructor|].
    destruct (requireRole_admin tok); [constructor|].
    destruct (validate_put_menu u); [|constructor].
    destruct (MenuItem_findById id w) as [|[m|]]; try constructor.
    destruct (update_invalid u); constructor.
  - unfold delete_menu. destruct (auth tok); [constructor|].
    destruct (requireRole_admin tok); [constructor|].
    destruct (MenuItem_findById id w) as [|[m|]]; constructor.
Qed.

(** A request leaves the clock alone and changes the collection in one of
    three ways: not at all, by appending one order stamped with the clock
    under a new id, or by moving the status of a stored order forward. *)
Lemma handle_orders r w :
  ids_unique w ->
  clock (snd (handle r w)) = clock w
  /\ exists old' new,
       orders (snd (handle r w)) = old' ++ new
       /\ Forall2 evolves (orders w) old'
       /\ (length new <= 1)%nat
       /\ Forall (fun o => createdAt o = clock w /\ _id o ∉ map _id (orders w)) new.
Proof.
  intros Hids.
  destruct (handle_outcome r w) as [|m|o cs Hfresh Hstamp|order st Hf Hst].
  - split; [done|]. exists (orders w), []. rewrite app_nil_r.
    eauto 6 using Forall2_evolves_refl with lia.
  - split; [done|]. exists (orders w), []. rewrite app_nil_r.
    eauto 6 using Forall2_evolves_refl with lia.
  - autorewrite with frame. simpl.
    split; [done|]. exists (orders w), [o].
    split; [done|]. split; [apply Forall2_evolves_refl|]. split; [simpl; lia|].
    constructor; [|done]. split; [done|]. by apply find_None_not_in.
  - apply find_has_id_Some in Hf as [_ Hin].
    destruct (bool_decide (st = ready)); autorewrite with frame; simpl;
      (split; [done|]); eexists _, []; rewrite app_nil_r;
      (split; [reflexivity|]); (split; [by apply save_evolves|]);
      (split; [simpl; lia|done]).
Qed.

Lemma step_orders e w :
  ids_unique w ->
  clock w <= clock (step e w)
  /\ exists old' new,
       orders (step e w) = old' ++ new
       /\ Forall2 evolves (orders w) old'
       /\ (length new <= 1)%nat
       /\ Forall (fun o => createdAt o = clock w /\ _id o ∉ map _id (orders w)) new.
Proof.
  intros Hids.
  assert (forall w', orders w' = orders w ->
            exists old' new,
              orders w' = old' ++ new
              /\ Forall2 evolves (orders w) old'
              /\ (length new <= 1)%nat
              /\ Forall (fun o => createdAt o = clock w
                                  /\ _id o ∉ map _id (orders w)) new) as Hsame.
  { intros w' Ho. exists (orders w), []. rewrite app_nil_r.
    split; [done|]. split; [apply Forall2_evolves_refl|]. split; [simpl; lia|done]. }
  destruct e; simpl.
  - split; [lia|]. by apply Hsame.
  - split; [done|]. by apply Hsame.
  - destruct (handle_orders r w Hids) as [Hc Hex]. split; [lia|done].
  - split; [|apply Hsame, orders_resume].
    unfold emitQueueUpdate_resume. destruct (in_flight w); [done|].
    destruct (io w); [|done].
    generalize (queue_messages (queueData w)). intros ms.
    assert (forall w0, clock (foldl (fun acc m => publish m acc) w0 ms) = clock w0)
      as ->; [|done].
    induction ms as [|m ms IH]; intros w0; simpl; [done|]. by rewrite IH.
  - split; [done|]. by apply Hsame.
Qed.

Lemma step_ids e w : ids_unique w -> ids_unique (step e w).
Proof.
  intros Hids. destruct (step_orders e w Hids) as (_ & old' & new & Ho & Hev & Hlen & Hnew).
  unfold ids_unique in *. rewrite Ho, map_app, (Forall2_evolves_ids _ _ Hev).
  destruct new as [|o [|o2 new]]; simpl in *; [by rewrite app_nil_r| |lia].
  apply Forall_inv in Hnew as [_ Hfresh].
  apply NoDup_app. split; [done|]. split.
  - intros x Hx Hx'. apply list_elem_of_singleton in Hx' as ->. done.
  - apply NoDup_singleton.
Qed.

Lemma step_chronological e w :
  ids_unique w -> chronological w -> chronological (step e w).
Proof.
  intros Hids [Hs Hc].
  destruct (step_orders e w Hids) as (Hclk & old' & new & Ho & Hev & Hlen & Hnew).
  unfold chronological. rewrite Ho, map_app, (Forall2_evolves_stamps _ _ Hev).
  assert (Forall (fun t => t = clock w) (map createdAt new)) as Hstamp.
  { clear Hlen Ho. induction Hnew as [|o new [Ht _] _ IH]; simpl; constructor; done. }
  split.
  - apply StronglySorted_app. split_and!.
    + intros t1 t2 H1 H2. rewrite Forall_forall in Hc, Hstamp.
      rewrite (Hstamp t2 H2). by apply Hc.
    + done.
    + destruct new as [|o [|o2 new]]; simpl in *; [constructor| |lia].
      repeat constructor.
  - apply Forall_app. split.
    + eapply Forall_impl; [exact Hc|]. simpl. intros t Ht. lia.
    + eapply Forall_impl; [exact Hstamp|]. simpl. intros t ->. done.
Qed.

Lemma run_cons e es w : run (e :: es) w = run es (step e w).
Proof. reflexivity. Qed.

Lemma run_ids es w : ids_unique w -> ids_unique (run es w).
Proof.
  revert w. induction es as [|e es IH]; intros w Hids; [done|].
  rewrite run_cons. by apply IH, step_ids.
Qed.

Lemma run_chronological es w :
  ids_unique w -> chronological w -> chronological (run es w).
Proof.
  revert w. induction es as [|e es IH]; intros w Hids Hc; [done|].
  rewrite run_cons. apply IH; [by apply step_ids|by apply step_chronological].
Qed.

(** Over a run, the documents present at the start keep their place and all
    their fields but the status, which moves forward, and the time of
    update; the orders created meanwhile stand behind them. *)
Lemma run_evolves es w :
  ids_unique w ->
  clock w <= clock (run es w)
  /\ exists old' new,
       orders (run es w) = old' ++ new
       /\ Forall2 evolves (orders w) old'
       /\ Forall (fun o => clock w <= createdAt o) new.
Proof.
  revert w. induction es as [|e es IH]; intros w Hids.
  - split; [done|]. exists (orders w), []. rewrite app_nil_r.
    split; [done|]. split; [apply Forall2_evolves_refl|done].
  - rewrite run_cons.
    destruct (step_orders e w Hids) as (Hclk & o1 & n1 & Ho1 & Hev1 & _ & Hn1).
    destruct (IH (step e w) (step_ids e w Hids)) as (Hclk2 & o2 & n2 & Ho2 & Hev2 & Hn2).
    split; [lia|].
    rewrite Ho1 in Hev2.
    apply Forall2_app_inv_l in Hev2 as (o2a & o2b & Ha & Hb & ->).
    exists o2a, (o2b ++ n2). split; [by rewrite Ho2, <- app_assoc|].
    split; [by eapply Forall2_evolves_trans|].
    apply Forall_app. split.
    + clear Ho1 Ho2. induction Hb as [|x y n1 o2b Hxy _ IHb]; [done|].
      apply Forall_cons in Hn1 as [[Hx _] Hn1].
      constructor; [|by apply IHb].
      destruct Hxy as (_&_&_&_&_&->&_). lia.
    + eapply Forall_impl; [exact Hn2|]. simpl. intros o Ho. lia.
Qed.


(** ** Creation stamps *)

Lemma StronglySorted_lookup {A} (R : A -> A -> Prop) (l : list A) i j x y :
  StronglySorted R l -> l !! i = Some x -> l !! j = Some y -> (i < j)%nat ->
  R x y.
Proof.
  intros Hs. revert i j. induction Hs as [|z l _ IH Hz]; intros i j Hi Hj Hij;
    [done|].
  destruct j as [|j]; [lia|]. simpl in Hj. destruct i as [|i]; simpl in Hi.
  - injection Hi as ->. rewrite Forall_forall in Hz. apply Hz.
    by eapply list_elem_of_lookup_2.
  - apply (IH i j); [done|done|lia].
Qed.

Lemma stamps_sorted_asc (l : list Order) :
  StronglySorted Z.le (map createdAt l) ->
  StronglySorted (fun x y => created_asc x y = true) l.
Proof.
  induction l as [|x l IH]; simpl; intros Hs; constructor;
    apply StronglySorted_inv in Hs as [Hs Hx].
  - by apply IH.
  - apply Forall_forall. intros y Hy. rewrite Forall_forall in Hx.
    unfold created_asc. apply Z.leb_le, Hx.
    change (createdAt y ∈ createdAt <$> l). by apply list_elem_of_fmap_2.
Qed.

(** Only the two creating routes answer 201 with an order and a position. *)
Lemma created_response_cases r w o q :
  fst (handle r w) = Json 201 (BOrderPos o q) ->
  (exists b new_id, r = PostOrder b new_id)
  \/ (exists tok new_id, r = PostFromCart tok new_id).
Proof.
  destruct r; simpl.
  - intros _. left. by eexists _, _.
  - unfold get_orders. by destruct tok.
  - unfold get_history. destruct tok; simpl; try done;
      by destruct (date_range q_date).
  - unfold get_order. by destruct (Order_findById id w) as [|[?|]].
  - unfold patch_status. destruct tok; simpl; try done;
      (destruct (status_of_string requested); [|done]);
      (destruct (Order_findById id w) as [|[?|]]; try done);
      by destruct (negb _).
  - intros _. right. by eexists _, _.
  - unfold get_my. by destruct tok.
  - unfold post_menu. destruct tok; simpl; try done.
    destruct (bool_decide _); [|done].
    destruct (validate_post_menu b); [|done].
    by destruct (menu w !! new_id).
  - unfold put_menu. destruct tok; simpl; try done.
    destruct (bool_decide _); [|done].
    destruct (validate_put_menu u); [|done].
    destruct (MenuItem_findById id w) as [|[?|]]; try done.
    by destruct (update_invalid u).
  - unfold delete_menu. destruct tok; simpl; try done.
    destruct (bool_decide _); [|done].
    by destruct (MenuItem_findById id w) as [|[?|]].
Qed.

Lemma created_response r w o q :
  fst (handle r w) = Json 201 (BOrderPos o q) ->
  createdAt o = clock w /\ orders (snd (handle r w)) = orders w ++ [o]
  /\ totalAmount o = items_total (items o).
Proof.
  intros Hr.
  destruct (created_response_cases r w o q Hr) as [(b & id & ->)|(tok & id & ->)];
    simpl in *.
  - by apply post_order_created in Hr as (?&?&?&?&?&?&?).
  - by apply post_from_cart_created in Hr as (?&?&?&?&?&?&?).
Qed.

(** The invariants hold in every world reached from an empty database. *)
Lemma reachable_invariants es t :
  ids_unique (run es (empty_world t)) /\ chronological (run es (empty_world t)).
Proof.
  assert (ids_unique (empty_world t)) as Hids by constructor.
  assert (chronological (empty_world t)) as Hchr by (split; constructor).
  split; [by apply run_ids|by apply run_chronological].
Qed.

(** C1, amended. The creation key of the source is [createdAt], the reading
    of the clock at creation.  Starting from a collection with unique ids
    that is in creation order, after any run: ids are still unique; every
    creation stamps the clock and appends; the orders present before keep
    their place, id and stamp, and the orders created meanwhile follow them
    with stamps between the clock at the start and the clock at the end; the
    stamps are non-decreasing along the collection, so that a stable sort by
    [createdAt] returns the collection in creation order and two orders with
    different stamps stand in the order of their stamps.  (Two orders may
    carry equal stamps.) *)
Theorem creation_stamps_follow_clock es w :
  ids_unique w -> chronological w ->
  let w' := run es w in
  ids_unique w'
  /\ chronological w'
  /\ (forall r o q, fst (handle r w') = Json 201 (BOrderPos o q) ->
        createdAt o = clock w' /\ orders (snd (handle r w')) = orders w' ++ [o])
  /\ (exists new,
        map _id (orders w') = map _id (orders w) ++ map _id new
        /\ map createdAt (orders w') = map createdAt (orders w) ++ map createdAt new
        /\ Forall (fun o => clock w <= createdAt o <= clock w') new)
  /\ sort_by created_asc (orders w') = orders w'
  /\ (forall i j o1 o2,
        orders w' !! i = Some o1 -> orders w' !! j = Some o2 -> (i < j)%nat ->
        createdAt o1 <= createdAt o2 /\ _id o1 <> _id o2).
Proof.
  intros Hids Hchr. cbv zeta.
  pose proof (run_ids es w Hids) as Hids'.
  pose proof (run_chronological es w Hids Hchr) as Hchr'.
  destruct (run_evolves es w Hids) as (Hclk & old' & new & Ho & Hev & Hnew).
  split; [done|]. split; [done|].
  split.
  { intros r o q Hr. by apply created_response in Hr as (?&?&?). }
  split.
  { exists new. rewrite Ho, !map_app.
    rewrite (Forall2_evolves_ids _ _ Hev), (Forall2_evolves_stamps _ _ Hev).
    split; [done|]. split; [done|].
    destruct Hchr' as [_ Hle]. rewrite Ho, map_app in Hle.
    apply Forall_app in Hle as [_ Hle].
    rewrite Forall_forall in Hnew. rewrite Forall_forall in Hle.
    apply Forall_forall.
    intros o Hin. split; [by apply Hnew|].
    apply Hle. change (createdAt o ∈ createdAt <$> new).
    by apply list_elem_of_fmap_2. }
  split.
  { apply sort_by_id. apply stamps_sorted_asc. by destruct Hchr'. }
  intros i j o1 o2 Hi Hj Hij. split.
  - destruct Hchr' as [Hs _].
    apply (StronglySorted_lookup Z.le (map createdAt (orders (run es w))) i j);
      [done| | |done].
    + change (map createdAt (orders (run es w)))
        with (createdAt <$> orders (run es w)).
      by rewrite list_lookup_fmap, Hi.
    + change (map createdAt (orders (run es w)))
        with (createdAt <$> orders (run es w)).
      by rewrite list_lookup_fmap, Hj.
  - intros Heq. unfold ids_unique in Hids'.
    assert (i = j); [|lia].
    apply (NoDup_lookup (map _id (orders (run es w))) i j (_id o1)); [done| |].
    + change (map _id (orders (run es w))) with (_id <$> orders (run es w)).
      by rewrite list_lookup_fmap, Hi.
    + change (map _id (orders (run es w))) with (_id <$> orders (run es w)).
      by rewrite list_lookup_fmap, Hj, Heq.
Qed.


(** ** Orders that left the queue *)






Lemma find_unique (l : list Order) o :
  NoDup (map _id l) -> o ∈ l -> List.find (has_id (_id o)) l = Some o.
Proof.
  intros Hnd Hin. destruct (List.find (has_id (_id o)) l) as [x|] eqn:Hf.
  - apply find_has_id_Some in Hf as [Hid Hx]. f_equal. by eapply NoDup_ids_eq.
  - apply find_None_not_in in Hf. exfalso. apply Hf.
    change (_id o ∈ _id <$> l). by apply list_elem_of_fmap_2.
Qed.

(** A document of the start of a run is still there at its end. *)
Lemma run_keeps es w o :
  ids_unique w -> o ∈ orders w ->
  exists o', o' ∈ orders (run es w) /\ evolves o o'
    /\ List.find (has_id (_id o)) (orders (run es w)) = Some o'.
Proof.
  intros Hids Hin.
  destruct (run_evolves es w Hids) as (_ & old' & new & Ho & Hev & _).
  apply list_elem_of_lookup in Hin as [i Hi].
  destruct (Forall2_lookup_l _ _ _ _ _ Hev Hi) as (o' & Hi' & Hoo').
  assert (o' ∈ orders (run es w)) as Hin'.
  { rewrite Ho. apply elem_of_app. left. by eapply list_elem_of_lookup_2. }
  exists o'. split; [done|]. split; [done|].
  destruct Hoo' as (<- & _). apply find_unique; [|done]. by apply run_ids.
Qed.






(** ** Totals *)

(** C7. An order created by [POST /] or [POST /from-cart] stores, for each
    requested item in turn, the id, name and price of the catalog entry as
    they are at that moment, with the requested quantity; its [totalAmount]
    is the sum of price × quantity over these stored line items; and after
    any further run, whatever it does to the catalog, the collection holds
    the order with the same line items and the same [totalAmount]. *)
Theorem total_is_sum_of_snapshots r w o q es :
  ids_unique w ->
  fst (handle r w) = Json 201 (BOrderPos o q) ->
  totalAmount o = items_total (items o)
  /\ (forall b new_id, r = PostOrder b new_id ->
        Forall2 (fun it oi => snapshot_of w (r_menuItemId it) (r_quantity it) oi)
                (b_items b) (items o))
  /\ (forall tok new_id, r = PostFromCart tok new_id ->
        exists uid cartItems, userAuth tok = inr uid
          /\ carts w !! uid = Some cartItems
          /\ Forall2 (fun it oi => snapshot_of w (ci_menuItemId it) (ci_quantity it) oi)
                     cartItems (items o))
  /\ exists o', List.find (has_id (_id o)) (orders (run es (snd (handle r w))))
                = Some o'
       /\ items o' = items o /\ totalAmount o' = totalAmount o.
Proof.
  intros Hids Hr.
  pose proof (created_response r w o q Hr) as (_ & Ho & Htotal).
  split; [done|]. split.
  { intros b new_id ->. simpl in Hr.
    by apply post_order_created in Hr as (?&?&?&?&?&?&?). }
  split.
  { intros tok new_id ->. simpl in Hr.
    by apply post_from_cart_created in Hr as (?&?&?&?&?&?&?). }
  assert (ids_unique (snd (handle r w))) as Hids1 by apply (step_ids (Call r) w Hids).
  assert (o ∈ orders (snd (handle r w))) as Hin.
  { rewrite Ho. apply elem_of_app. right. by apply list_elem_of_singleton. }
  destruct (run_keeps es _ o Hids1 Hin) as (o' & _ & Hev & Hfind).
  exists o'. split; [done|]. by destruct Hev as (_&_&_&?&?&_).
Qed.

End Properties.

(** * Properties of the routes beyond the queue *)

Section MoreProperties.
Context `{Platform}.

(** ** Refusals and reads *)

Lemma handle_refused_unchanged r w :
  refused (fst (handle r w)) -> snd (handle r w) = w.
Proof.
  destruct r; simpl.
  - unfold post_order. destruct (validate_post_order b); [|done].
    destruct (build_order_items w _ _ _) as [r|[its total]]; [done|].
    unfold Order_create. destruct (List.find _ _); [done|].
    simpl. lia.
  - unfold get_orders. by destruct (auth tok).
  - unfold get_history. destruct (auth tok); [done|].
    by destruct (date_range q_date).
  - unfold get_order. by destruct (Order_findById id w) as [|[?|]].
  - unfold patch_status. destruct (auth tok); [done|].
    destruct (status_of_string requested); [|done].
    destruct (Order_findById id w) as [|[?|]]; try done.
    destruct (negb _); [done|]. simpl. lia.
  - unfold post_from_cart. destruct (userAuth tok); [done|].
    destruct (users w !! _); [|done].
    destruct (carts w !! _) as [[|??]|]; try done.
    destruct (build_cart_items w _ _ _) as [r|[its total]]; [done|].
    unfold Order_create. destruct (List.find _ _); [done|].
    simpl. lia.
  - unfold get_my. by destruct (userAuth tok).
  - unfold post_menu. destruct (auth tok); [done|].
    destruct (requireRole_admin tok); [done|].
    destruct (validate_post_menu b); [|done].
    destruct (menu w !! new_id); [done|]. simpl. lia.
  - unfold put_menu. destruct (auth tok); [done|].
    destruct (requireRole_admin tok); [done|].
    destruct (validate_put_menu u); [|done].
    destruct (MenuItem_findById id w) as [|[?|]]; try done.
    destruct (update_invalid u); [done|]. simpl. lia.
  - unfold delete_menu. destruct (auth tok); [done|].
    destruct (requireRole_admin tok); [done|].
    destruct (MenuItem_findById id w) as [|[?|]]; try done. simpl. lia.
Qed.

(** X1. A request that is refused (a 4xx answer, or a handler whose promise
    rejects) leaves the whole world as it was, and so does every reading
    route of the orders router, whatever it answers. *)
Theorem refused_changes_nothing r w :
  (refused (fst (handle r w)) -> snd (handle r w) = w)
  /\ (forall tok s d, snd (handle (GetHistory tok s d) w) = w)
  /\ (forall tok, snd (handle (GetOrders tok) w) = w)
  /\ (forall id, snd (handle (GetOrder id) w) = w)
  /\ (forall tok s, snd (handle (GetMy tok s) w) = w).
Proof.
  split; [apply handle_refused_unchanged|].
  repeat split; intros; simpl.
  - unfold get_history. destruct (auth tok); [done|].
    by destruct (date_range d).
  - unfold get_orders. by destruct (auth tok).
  - unfold get_order. by destruct (Order_findById id w) as [|[?|]].
  - unfold get_my. by destruct (userAuth tok).
Qed.

(** ** More on the status machine *)

Lemma stage_next_exact a b : b ∈ VALID_TRANSITIONS a -> stage b = S (stage a).
Proof.
  destruct a; simpl; intros Hb;
    repeat (apply elem_of_cons in Hb as [->|Hb]); simpl; try done;
    by apply elem_of_nil in Hb.
Qed.

Lemma not_own_successor a : a ∉ VALID_TRANSITIONS a.
Proof.
  intros Ha. apply stage_next_exact in Ha. lia.
Qed.

Lemma status_of_string_Some requested st :
  status_of_string requested = Some st -> requested = status_name st.
Proof.
  unfold status_of_string. intros Hst. apply find_some in Hst as [_ Hst].
  by apply bool_decide_eq_true in Hst.
Qed.

Lemma find_saved id order order' w :
  List.find (has_id id) (orders w) = Some order -> _id order' = id ->
  List.find (has_id id) (orders (Order_save order' w)) = Some order'.
Proof. intros Hf Hid. unfold Order_save. simpl. by eapply find_after_save. Qed.

(** What an accepted status change is. *)
Lemma patch_status_accepted tok id requested w body :
  fst (patch_status tok id requested w) = Json 200 body ->
  exists order st,
    auth tok = None /\ valid_oid id = true
    /\ List.find (has_id id) (orders w) = Some order
    /\ requested = status_name st
    /\ st ∈ VALID_TRANSITIONS (status order)
    /\ body = BOrder (with_status st (clock w) order)
    /\ snd (patch_status tok id requested w)
       = emitQueueUpdate
           ((if bool_decide (st = ready) then emitOrderReady (_id order)
             else fun w' => w')
              (Order_save (with_status st (clock w) order) w)).
Proof.
  unfold patch_status. destruct (auth tok) as [r|] eqn:Ha.
  { destruct tok; simpl in Ha; simplify_eq; done. }
  destruct (status_of_string requested) as [st|] eqn:Hst; [|done].
  apply status_of_string_Some in Hst as ->.
  unfold Order_findById. destruct (valid_oid id); [|done].
  destruct (List.find _ _) as [order|] eqn:Hf; [|done].
  destruct (negb _) eqn:Hinc; [done|].
  apply negb_false_iff, includes_name in Hinc.
  simpl. intros [= <-]. exists order, st.
  repeat split; try done. by destruct (bool_decide (st = ready)).
Qed.

(** A status change is accepted with 200, or changes nothing. *)
Lemma patch_status_cases tok id requested w :
  (exists body, fst (patch_status tok id requested w) = Json 200 body)
  \/ snd (patch_status tok id requested w) = w.
Proof.
  unfold patch_status. destruct (auth tok); [by right|].
  destruct (status_of_string requested); [|by right].
  destruct (Order_findById id w) as [|[?|]]; try by right.
  destruct (negb _); [by right|]. left. by eexists.
Qed.

(** X2. An accepted status change moves the order exactly one stage along
    pending, preparing, ready, completed, and is not idempotent: the same
    request sent again is answered 400 and changes nothing. *)
Theorem status_change_is_one_step tok id requested w body :
  fst (patch_status tok id requested w) = Json 200 body ->
  exists order order',
    List.find (has_id id) (orders w) = Some order
    /\ body = BOrder order'
    /\ stage (status order') = S (stage (status order))
    /\ patch_status tok id requested (snd (patch_status tok id requested w))
       = (Json 400 (BMessage (transition_message (status order') requested)),
          snd (patch_status tok id requested w)).
Proof.
  intros Hr.
  apply patch_status_accepted in Hr
    as (order & st & Ha & Hv & Hf & -> & Hst & -> & Hw).
  exists order, (with_status st (clock w) order).
  split; [done|]. split; [done|]. split; [by apply stage_next_exact|].
  rewrite Hw. set (w' := emitQueueUpdate _).
  assert (orders w' = orders (Order_save (with_status st (clock w) order) w)) as Ho.
  { unfold w'. rewrite orders_emitQueueUpdate.
    destruct (bool_decide (st = ready)); [apply orders_emitOrderReady|done]. }
  unfold patch_status. rewrite Ha, status_of_string_name.
  pose proof (find_has_id_Some _ _ _ Hf) as [Hid _].
  unfold Order_findById. rewrite Hv, Ho.
  rewrite (find_saved id order (with_status st (clock w) order) w Hf Hid).
  simpl status.
  destruct (includes (VALID_TRANSITIONS st) (status_name st)) eqn:Hinc; [|done].
  apply includes_name in Hinc. by apply not_own_successor in Hinc.
Qed.

(** X3. A status change touches one document only: every order with another
    id keeps its place and all its fields, and the menu, the users and the
    carts are as before. *)
Theorem status_change_frame tok id requested w :
  let w' := snd (patch_status tok id requested w) in
  (forall i x, orders w !! i = Some x -> _id x <> id -> orders w' !! i = Some x)
  /\ length (orders w') = length (orders w)
  /\ map _id (orders w') = map _id (orders w)
  /\ menu w' = menu w /\ users w' = users w /\ carts w' = carts w
  /\ clock w' = clock w.
Proof.
  cbv zeta. destruct (patch_status_cases tok id requested w) as [[body Hr]| ->];
    [|done].
  apply patch_status_accepted in Hr
    as (order & st & Ha & Hv & Hf & -> & Hst & -> & ->).
  pose proof (find_has_id_Some _ _ _ Hf) as [Hid _].
  assert (forall w0, orders (emitQueueUpdate
            ((if bool_decide (st = ready) then emitOrderReady (_id order)
              else fun w' => w') w0)) = orders w0) as Ho.
  { intros w0. rewrite orders_emitQueueUpdate.
    destruct (bool_decide (st = ready)); [apply orders_emitOrderReady|done]. }
  rewrite Ho. unfold Order_save. simpl orders. simpl _id. rewrite Hid.
  split.
  { intros i x Hi Hx.
    change (map ?f (orders w)) with (f <$> orders w).
    rewrite list_lookup_fmap, Hi. simpl.
    destruct (has_id id x) eqn:Hh; [|done].
    by apply has_id_true in Hh. }
  split; [by rewrite length_map|].
  split.
  { rewrite map_map. rewrite <- (map_id (map _id (orders w))) at 1.
    rewrite map_map. apply map_ext. intros x.
    destruct (has_id id x) eqn:Hh; [|done].
    apply has_id_true in Hh. simpl. congruence. }
  assert (forall w0, same_data (emitQueueUpdate
            ((if bool_decide (st = ready) then emitOrderReady id
              else fun w' => w') w0)) w0) as Hsame.
  { intros w0. eapply same_data_trans; [apply same_data_emitQueueUpdate|].
    destruct (bool_decide (st = ready));
      [apply same_data_emitOrderReady|apply same_data_refl]. }
  destruct (Hsame (set_orders
              (map (fun x => if has_id id x then with_status st (clock w) order
                             else x) (orders w)) w)) as (_ & ? & ? & ? & ?).
  done.
Qed.


(** ** Who may call what *)

Lemma auth_refused tok r : auth tok = Some r -> refused r.
Proof. destruct tok; simpl; intros [= <-]; simpl; lia. Qed.

Lemma requireRole_refused tok r : requireRole_admin tok = Some r -> refused r.
Proof.
  destruct tok; simpl; try (intros [= <-]; simpl; lia).
  destruct (bool_decide _); [done|]. intros [= <-]. simpl. lia.
Qed.

Lemma userAuth_refused tok r : userAuth tok = inl r -> refused r.
Proof. destruct tok; simpl; intros [= <-]; simpl; lia. Qed.


(** X4. The [auth] middleware accepts every verified token, a customer's
    included: with a customer token the staff routes of the orders router
    (active list, history, status change) behave exactly as with a staff
    token, while the writing menu routes, which also ask for the admin role,
    refuse it with 403 and change nothing. *)
Theorem staff_routes_accept_customer_token uid role w :
  (forall id requested,
     patch_status (UserToken uid) id requested w
     = patch_status (AdminToken role) id requested w)
  /\ get_orders (UserToken uid) w = get_orders (AdminToken role) w
  /\ (forall s d, get_history (UserToken uid) s d w
                  = get_history (AdminToken role) s d w)
  /\ (forall b new_id,
        post_menu (UserToken uid) b new_id w
        = (Json 403 (BMessage "Forbidden. Insufficient permissions."), w))
  /\ (forall id u,
        put_menu (UserToken uid) id u w
        = (Json 403 (BMessage "Forbidden. Insufficient permissions."), w))
  /\ (forall id,
        delete_menu (UserToken uid) id w
        = (Json 403 (BMessage "Forbidden. Insufficient permissions."), w)).
Proof. repeat split. Qed.

(** X5. Only a token with the role admin writes the menu: with any other
    token, the kitchen role included, creating, updating and deleting a menu
    item are refused with 401 or 403 and the world is unchanged. *)
Theorem menu_writes_need_admin tok b new_id id u w :
  tok <> AdminToken "admin" ->
  let denied (r : Response * World) :=
    exists message, (fst r = Json 401 (BMessage message)
                     \/ fst r = Json 403 (BMessage message))
                    /\ snd r = w in
  denied (post_menu tok b new_id w)
  /\ denied (put_menu tok id u w)
  /\ denied (delete_menu tok id w).
Proof.
  intros Htok. cbv zeta.
  unfold post_menu, put_menu, delete_menu.
  destruct tok as [| |role|uid]; simpl.
  - repeat split; eexists; (split; [left; reflexivity|reflexivity]).
  - repeat split; eexists; (split; [left; reflexivity|reflexivity]).
  - destruct (bool_decide (role = "admin")) eqn:Hrole.
    { apply bool_decide_eq_true in Hrole. congruence. }
    repeat split; eexists; (split; [right; reflexivity|reflexivity]).
  - repeat split; eexists; (split; [right; reflexivity|reflexivity]).
Qed.

(** ** Placing an order *)

Lemma flat_map_nil {A B} (f : A -> list B) l :
  flat_map f l = [] <-> Forall (fun x => f x = []) l.
Proof.
  induction l as [|x l IH]; simpl.
  - split; [constructor|done].
  - split.
    + intros Happ. apply app_eq_nil in Happ as [Hx Hl].
      constructor; [done|by apply IH].
    + intros Hall. apply Forall_cons in Hall as [Hx Hl].
      rewrite Hx. simpl. by apply IH.
Qed.

(** X6. The validators of [POST /] report no error exactly when the customer
    name is not blank, there is at least one item, and every item has a
    non-empty menu item id and a quantity that is an integer of at least 1;
    with any error the answer is 400 with the list of messages and nothing
    is looked up or stored. *)
Theorem post_order_validation b new_id w :
  (validate_post_order b = []
   <-> trim (b_customerName b) <> EmptyString
       /\ b_items b <> []
       /\ Forall (fun it => r_menuItemId it <> EmptyString
                            /\ isInt_min1 (r_quantity it) = true) (b_items b))
  /\ (validate_post_order b <> [] ->
      post_order b new_id w = (Json 400 (BErrors (validate_post_order b)), w)).
Proof.
  split.
  - unfold validate_post_order. split.
    + intros Hv. apply app_eq_nil in Hv as [Hname Hv].
      apply app_eq_nil in Hv as [Hitems Hv].
      apply app_eq_nil in Hv as [Hids Hqs].
      rewrite flat_map_nil in Hids. rewrite flat_map_nil in Hqs.
      split.
      { unfold is_empty in Hname. destruct (bool_decide _) eqn:Hb; [done|].
        by apply bool_decide_eq_false in Hb. }
      split; [by destruct (b_items b)|].
      rewrite Forall_forall in Hids. rewrite Forall_forall in Hqs.
      apply Forall_forall. intros it Hin. split.
      * specialize (Hids it Hin). unfold is_empty in Hids.
        destruct (bool_decide _) eqn:Hb; [done|].
        by apply bool_decide_eq_false in Hb.
      * specialize (Hqs it Hin). by destruct (isInt_min1 _).
    + intros (Hname & Hitems & Hall).
      assert (is_empty (trim (b_customerName b)) = false) as ->.
      { unfold is_empty. by apply bool_decide_eq_false. }
      assert (flat_map (fun it0 => if is_empty (r_menuItemId it0)
                         then ["Each item must have a menuItemId"] else [])
                       (b_items b) = []) as ->.
      { apply flat_map_nil. eapply Forall_impl; [exact Hall|].
        intros x [Hx _]. unfold is_empty.
        by rewrite (bool_decide_eq_false_2 _ Hx). }
      assert (flat_map (fun it0 => if isInt_min1 (r_quantity it0) then []
                         else ["Quantity must be at least 1"])
                       (b_items b) = []) as ->.
      { apply flat_map_nil. eapply Forall_impl; [exact Hall|].
        intros x [_ Hx]. by rewrite Hx. }
      by destruct (b_items b).
  - intros Hv. unfold post_order.
    destruct (validate_post_order b); [congruence|reflexivity].
Qed.

Lemma build_order_items_all w its acc total :
  Forall (fun it => valid_oid (r_menuItemId it) = true
                    /\ exists m, menu w !! r_menuItemId it = Some m
                                 /\ m_isAvailable m = true) its ->
  exists new total',
    build_order_items w its acc total = inr (acc ++ new, total')
    /\ length new = length its.
Proof.
  intros Hall. revert acc total.
  induction Hall as [|it its (Hv & m & Hm & Hav) _ IH]; intros acc total.
  - exists [], total. by rewrite app_nil_r.
  - simpl. unfold MenuItem_findById. rewrite Hv, Hm, Hav. simpl.
    destruct (IH (acc ++ [ {| oi_menuItemId := m_id m; oi_name := m_name m;
                              oi_quantity := r_quantity it;
                              oi_price := m_price m |} ])
                 (num_add total (num_mul (m_price m) (r_quantity it))))
      as (new & total' & -> & Hlen).
    eexists (_ :: new), total'. rewrite <- app_assoc. split; [done|].
    simpl. by rewrite Hlen.
Qed.

(** X7. [POST /] accepts every well-formed order: when the validators pass,
    every item names, by an id that casts, a catalog entry that is
    available, and the generated id is new, the answer is 201 with a pending
    guest order of as many line items as requested, appended to the
    collection, and with its queue position in the collection so extended. *)
Theorem post_order_accepts b new_id w :
  validate_post_order b = [] ->
  Forall (fun it => valid_oid (r_menuItemId it) = true
                    /\ exists m, menu w !! r_menuItemId it = Some m
                                 /\ m_isAvailable m = true) (b_items b) ->
  List.find (has_id new_id) (orders w) = None ->
  exists o,
    fst (post_order b new_id w)
    = Json 201 (BOrderPos o (Some (getQueuePosition o (snd (post_order b new_id w)))))
    /\ orders (snd (post_order b new_id w)) = orders w ++ [o]
    /\ _id o = new_id /\ status o = pending /\ userId o = None
    /\ customerName o = trim (trim (b_customerName b))
    /\ length (items o) = length (b_items b).
Proof.
  intros Hv Hall Hfresh. unfold post_order. rewrite Hv.
  destruct (build_order_items_all w (b_items b) [] num_zero Hall)
    as (new & total & -> & Hlen).
  unfold Order_create. rewrite Hfresh. simpl.
  eexists. split.
  { do 3 f_equal. unfold getQueuePosition. by rewrite orders_emitQueueUpdate. }
  rewrite orders_emitQueueUpdate. by repeat split.
Qed.

(** ** More on queue positions *)

Lemma filter_length_le {A} (f : A -> bool) l :
  (length (List.filter f l) <= length l)%nat.
Proof. induction l as [|x l IH]; simpl; [done|]. destruct (f x); simpl; lia. Qed.

Lemma filter_length_lt {A} (f : A -> bool) l x :
  x ∈ l -> f x = false -> (length (List.filter f l) < length l)%nat.
Proof.
  induction l as [|y l IH]; intros Hin Hx; [by apply elem_of_nil in Hin|].
  simpl. apply elem_of_cons in Hin as [<-|Hin].
  - rewrite Hx. pose proof (filter_length_le f l). lia.
  - specialize (IH Hin Hx). destruct (f y); simpl; lia.
Qed.

(** X8. The queue position of an active order of the collection lies between
    1 and the number of active orders. *)
Theorem position_within_queue o w :
  o ∈ orders w -> is_active (status o) = true ->
  (1 <= getQueuePosition o w <= length (active_set w))%nat.
Proof.
  intros Hin Hact. rewrite getQueuePosition_rank. unfold rank.
  assert (o ∈ active_set w) as Ho.
  { unfold active_set. apply list_elem_of_In, filter_In.
    split; [by apply list_elem_of_In|done]. }
  pose proof (filter_length_lt (fun x => createdAt x <? createdAt o)
                (active_set w) o Ho (Z.ltb_irrefl _)).
  lia.
Qed.


Lemma evolves_active_back o o' :
  evolves o o' -> is_active (status o') = true -> is_active (status o) = true.
Proof.
  intros (_&_&_&_&_&_&Hst) Hact.
  destruct (status o), (status o'); simpl in *; try done; lia.
Qed.

Lemma ahead_count_evolves (l l' : list Order) (t : Z) :
  Forall2 evolves l l' ->
  (length (List.filter (fun x => is_active (status x) && (createdAt x <? t)%Z) l')
   <= length (List.filter (fun x => is_active (status x) && (createdAt x <? t)%Z) l))%nat.
Proof.
  induction 1 as [|x y l l' Hxy _ IH]; simpl; [done|].
  destruct (is_active (status y)) eqn:Hy; simpl.
  - rewrite (evolves_active_back x y Hxy Hy). simpl.
    destruct Hxy as (_&_&_&_&_&->&_).
    destruct (createdAt x <? t); simpl; lia.
  - destruct (is_active (status x) && (createdAt x <? t)); simpl; lia.
Qed.

Lemma ahead_count_later (l : list Order) t :
  Forall (fun x => t <= createdAt x) l ->
  List.filter (fun x => is_active (status x) && (createdAt x <? t)) l = [].
Proof.
  induction 1 as [|x l Hx _ IH]; simpl; [done|].
  assert ((createdAt x <? t) = false) as -> by lia.
  by rewrite andb_false_r.
Qed.

(** X9. A place in the queue is never lost: in a collection with unique ids
    that is in creation order, whatever happens next (orders placed, statuses
    changed, time passing), the queue position computed for an order is at
    most what it was. *)
Theorem position_never_worsens es w o :
  ids_unique w -> chronological w -> o ∈ orders w ->
  exists o',
    List.find (has_id (_id o)) (orders (run es w)) = Some o'
    /\ (getQueuePosition o' (run es w) <= getQueuePosition o w)%nat.
Proof.
  intros Hids [_ Hclk] Hin.
  destruct (run_keeps es w o Hids Hin) as (o' & _ & Hev & Hfind).
  exists o'. split; [done|].
  destruct (run_evolves es w Hids) as (_ & old' & new & Ho & Hall & Hnew).
  unfold getQueuePosition. rewrite Ho, List.filter_app, length_app.
  destruct Hev as (_&_&_&_&_&->&_).
  rewrite (ahead_count_later new (createdAt o)).
  - pose proof (ahead_count_evolves (orders w) old' (createdAt o) Hall).
    simpl. lia.
  - eapply Forall_impl; [exact Hnew|]. simpl. intros x Hx.
    rewrite Forall_forall in Hclk.
    assert (createdAt o <= clock w); [|lia].
    apply Hclk. change (createdAt o ∈ createdAt <$> orders w).
    by apply list_elem_of_fmap_2.
Qed.

(** ** Ordering from the cart *)

Lemma build_cart_items_all w its acc total :
  Forall (fun it => exists m, menu w !! ci_menuItemId it = Some m
                              /\ m_isAvailable m = true) its ->
  exists new total',
    build_cart_items w its acc total = inr (acc ++ new, total')
    /\ length new = length its.
Proof.
  intros Hall. revert acc total.
  induction Hall as [|it its (m & Hm & Hav) _ IH]; intros acc total.
  - exists [], total. by rewrite app_nil_r.
  - simpl. rewrite Hm, Hav. simpl.
    destruct (IH (acc ++ [ {| oi_menuItemId := m_id m; oi_name := m_name m;
                              oi_quantity := ci_quantity it;
                              oi_price := m_price m |} ])
                 (num_add total (num_mul (m_price m) (ci_quantity it))))
      as (new & total' & -> & Hlen).
    eexists (_ :: new), total'. rewrite <- app_assoc. split; [done|].
    simpl. by rewrite Hlen.
Qed.

(** X10. [POST /from-cart] accepts every orderable cart: for a customer who
    exists, with a cart that is not empty and whose items all name an
    available catalog entry, and a generated id that is new, the answer is
    201 with a pending order owned by the customer, under the customer's
    name, of as many line items as the cart has. *)
Theorem from_cart_accepts tok uid user cartItems new_id w :
  userAuth tok = inr uid ->
  users w !! uid = Some user ->
  carts w !! uid = Some cartItems -> cartItems <> [] ->
  Forall (fun it => exists m, menu w !! ci_menuItemId it = Some m
                              /\ m_isAvailable m = true) cartItems ->
  List.find (has_id new_id) (orders w) = None ->
  exists o q,
    fst (post_from_cart tok new_id w) = Json 201 (BOrderPos o (Some q))
    /\ orders (snd (post_from_cart tok new_id w)) = orders w ++ [o]
    /\ _id o = new_id /\ status o = pending /\ userId o = Some uid
    /\ customerName o = trim (u_name user)
    /\ length (items o) = length cartItems.
Proof.
  intros Hu Huser Hcart Hne Hall Hfresh. unfold post_from_cart.
  rewrite Hu, Huser, Hcart. destruct cartItems as [|ci cis]; [done|].
  destruct (build_cart_items_all w (ci :: cis) [] num_zero Hall)
    as (new & total & -> & Hlen).
  unfold Order_create. rewrite Hfresh. simpl.
  eexists _, _. split; [reflexivity|].
  rewrite orders_emitQueueUpdate. simpl. by repeat split.
Qed.

(** X11. A successful [POST /from-cart] empties the cart of the customer and
    of nobody else, leaves users and menu alone, and cannot be repeated: sent
    again at once, with any generated id, it is answered 400 "Your cart is
    empty." and changes nothing. *)
Theorem from_cart_empties_the_cart tok uid new_id w o q :
  userAuth tok = inr uid ->
  fst (post_from_cart tok new_id w) = Json 201 (BOrderPos o q) ->
  let w' := snd (post_from_cart tok new_id w) in
  carts w' !! uid = Some []
  /\ (forall other, other <> uid -> carts w' !! other = carts w !! other)
  /\ users w' = users w /\ menu w' = menu w
  /\ (forall id2, post_from_cart tok id2 w'
                  = (Json 400 (BMessage "Your cart is empty."), w')).
Proof.
  intros Hu Hr. cbv zeta. revert Hr. unfold post_from_cart. rewrite Hu.
  destruct (users w !! uid) as [user|] eqn:Huser; [|done].
  destruct (carts w !! uid) as [[|ci cis]|] eqn:Hc; [done| |done].
  destruct (build_cart_items w _ _ _) as [r|[its total]] eqn:Hb.
  { simpl. intros ->. apply build_cart_items_inl in Hb.
    by apply refused_not_201 in Hb. }
  unfold Order_create. destruct (List.find _ _); [done|]. simpl. intros _.
  match goal with
  | |- context [emitQueueUpdate ?x] =>
      destruct (same_data_emitQueueUpdate x) as (_ & Hm1 & Hu1 & Hc1 & _);
      set (w1 := emitQueueUpdate x) in *
  end.
  simpl in Hm1, Hu1, Hc1.
  rewrite Hc1, Hu1, Hm1. split; [apply lookup_insert_eq|].
  split; [intros other Hne; by apply lookup_insert_ne|].
  split; [done|]. split; [done|].
  intros id2. by rewrite Huser, lookup_insert_eq.
Qed.


(** ** More on the listings *)

Lemma elem_of_take {A} (l : list A) n x : x ∈ take n l -> x ∈ l.
Proof.
  intros Hin. rewrite <- (take_drop n l). apply elem_of_app. by left.
Qed.

Lemma elem_of_sort_filter {A} (le : A -> A -> bool) (f : A -> bool) l x :
  x ∈ sort_by le (List.filter f l) <-> x ∈ l /\ f x = true.
Proof.
  rewrite sort_by_perm. rewrite !list_elem_of_In. apply filter_In.
Qed.

(** X12. The listing of an owner shows orders of that owner only, each with
    a status that the filter asked for; guest orders are in nobody's
    listing; and an order is listed with a position exactly when it is
    pending or preparing, the position being the one [getQueuePosition]
    computes. *)
Theorem my_listing_is_private tok uid q_status w :
  userAuth tok = inr uid ->
  exists listed,
    fst (get_my tok q_status w) = Json 200 (BMyOrders listed)
    /\ Forall (fun row =>
                 fst row ∈ orders w
                 /\ userId (fst row) = Some uid
                 /\ status_matches (truthy q_status) (fst row) = true
                 /\ snd row = (if is_active (status (fst row))
                               then Some (getQueuePosition (fst row) w)
                               else None))
              listed.
Proof.
  intros Hu. unfold get_my. rewrite Hu. eexists. split; [reflexivity|].
  apply Forall_forall. intros row Hrow.
  change (row ∈ (fun order => (order, live_position order w))
                <$> my_orders uid (truthy q_status) w) in Hrow.
  apply list_elem_of_fmap in Hrow as (o & -> & Ho). simpl.
  unfold my_orders in Ho. apply elem_of_take in Ho.
  apply elem_of_sort_filter in Ho as [Hin Hf].
  apply andb_true_iff in Hf as [Hown Hst].
  apply bool_decide_eq_true in Hown. by repeat split.
Qed.

(** X13. The history shows matching orders only (the status asked for, a
    creation stamp within the day asked for), and what the cap of 200 leaves
    out is never newer than what is shown. *)
Theorem history_keeps_the_newest st range w :
  let matching o := status_matches st o && date_matches range o in
  Forall (fun o => o ∈ orders w /\ matching o = true) (history_orders st range w)
  /\ (forall shown,
        shown ∈ history_orders st range w ->
        exists rest,
          sort_by created_desc (List.filter matching (orders w))
          = history_orders st range w ++ rest
          /\ Forall (fun left_out => createdAt left_out <= createdAt shown) rest).
Proof.
  cbv zeta. unfold history_orders.
  set (full := sort_by created_desc _).
  split.
  - apply Forall_forall. intros o Ho. apply elem_of_take in Ho.
    by apply elem_of_sort_filter in Ho.
  - intros shown Hshown. exists (drop 200 full).
    split; [by rewrite take_drop|].
    pose proof (sort_desc_sorted
                  (List.filter (fun o => status_matches st o && date_matches range o)
                               (orders w))) as Hs.
    fold full in Hs. rewrite <- (take_drop 200 full) in Hs.
    apply StronglySorted_app in Hs as (Hcross & _ & _).
    apply Forall_forall. intros y Hy. by apply Hcross.
Qed.

(** X14. The staff list of [GET /] and the broadcast agree: with a token, the
    list holds exactly the pending and preparing orders of the collection,
    oldest first, and the snapshot built from the same world has the same
    orders in the same places, the order at index i at position i + 1. *)
Theorem staff_list_is_the_snapshot tok w :
  auth tok = None ->
  exists listed,
    get_orders tok w = (Json 200 (BOrders listed), w)
    /\ (forall o, o ∈ listed <-> o ∈ orders w /\ is_active (status o) = true)
    /\ length listed = length (active_set w)
    /\ StronglySorted (fun x y => createdAt x <= createdAt y) listed
    /\ (forall i o, listed !! i = Some o ->
          queueData w !! i
          = Some {| q_orderId := _id o; q_status := status o;
                    q_customerName := customerName o;
                    q_queuePosition := S i |}).
Proof.
  intros Ha. unfold get_orders. rewrite Ha. eexists. split; [reflexivity|].
  split.
  { intros o. unfold active_orders, active_set.
    apply (elem_of_sort_filter created_asc (fun x => is_active (status x))). }
  split; [unfold active_orders; apply sort_by_length|].
  split; [apply active_orders_sorted|].
  intros i o Hi. unfold queueData. rewrite list_lookup_imap, Hi. simpl.
  unfold queue_entry. do 2 f_equal. lia.
Qed.


(** ** Which route serves a request *)

Lemma dispatch_one_segment s :
  dispatch GET [s]
  = if bool_decide (lower "history" = lower s) then Some r_get_history
    else if negb (is_empty s) then Some r_get_order
    else None.
Proof.
  unfold dispatch, orders_router. simpl.
  unfold is_empty. destruct (bool_decide (s = EmptyString)) eqn:Hs.
  - apply bool_decide_eq_true in Hs as ->. vm_compute. reflexivity.
  - simpl. rewrite !andb_true_r. clear Hs. by case_bool_decide.
Qed.

(** X15. In the orders router [GET /:id] is registered before [GET /my], so
    no request is ever served by the handler of [GET /my]: [GET /my] goes to
    the handler of [GET /:id] with the id "my", which rejects because "my"
    does not cast to an ObjectId.  [GET /history] and [POST /from-cart] are
    served by their own handlers. *)
Theorem my_route_is_shadowed w :
  valid_oid "my" = false ->
  (forall m path, dispatch m path <> Some r_get_my)
  /\ dispatch GET ["my"] = Some r_get_order
  /\ get_order "my" w = (Unhandled, w)
  /\ dispatch GET ["history"] = Some r_get_history
  /\ dispatch POST ["from-cart"] = Some r_post_from_cart.
Proof.
  intros Hmy. split.
  - intros m path.
    destruct path as [|s [|s2 [|s3 path]]];
      destruct m;
      try (unfold dispatch, orders_router; simpl;
           rewrite ?andb_false_r, ?andb_true_r; by repeat case_match).
    rewrite dispatch_one_segment. by repeat case_match.
  - split; [done|]. split; [|done].
    unfold get_order, Order_findById. by rewrite Hmy.
Qed.


(** ** The menu *)

Lemma elem_of_menu_docs w x :
  x ∈ menu_docs w <-> exists id, menu w !! id = Some x.
Proof.
  unfold menu_docs. rewrite list_elem_of_fmap. split.
  - intros ([id y] & -> & Hin). exists id. by apply elem_of_map_to_list in Hin.
  - intros (id & Hid). exists (id, x). split; [done|].
    by apply elem_of_map_to_list.
Qed.

Lemma elem_of_get_menu w x :
  x ∈ get_menu w <-> (exists id, menu w !! id = Some x) /\ m_isAvailable x = true.
Proof.
  unfold get_menu. rewrite elem_of_sort_filter. by rewrite elem_of_menu_docs.
Qed.

(** X16. The public menu shows the available items and all of them; the
    staff list shows every item; an item that is not available is still
    answered by [GET /api/menu/:id]. *)
Theorem public_menu_is_the_available_part tok id x w :
  auth tok = None -> valid_oid id = true -> menu w !! id = Some x ->
  (forall y, y ∈ get_menu w
             <-> (exists i, menu w !! i = Some y) /\ m_isAvailable y = true)
  /\ (exists listed, get_menu_all tok w = inr listed
        /\ forall y, y ∈ listed <-> exists i, menu w !! i = Some y)
  /\ (x ∈ get_menu w <-> m_isAvailable x = true)
  /\ get_menu_item id w = Json 200 (BMenuItem x).
Proof.
  intros Ha Hv Hx. split; [intros y; apply elem_of_get_menu|].
  split.
  { unfold get_menu_all. rewrite Ha. eexists. split; [reflexivity|].
    intros y. rewrite sort_by_perm. apply elem_of_menu_docs. }
  split.
  { rewrite elem_of_get_menu. split; [by intros [_ ?]|]. intros Hav.
    split; [by exists id|done]. }
  unfold get_menu_item, MenuItem_findById. by rewrite Hv, Hx.
Qed.

(** What an accepted creation of a menu item is. *)
Lemma post_menu_accepted tok b new_id w item :
  fst (post_menu tok b new_id w) = Json 201 (BMenuItem item) ->
  menu w !! new_id = None
  /\ item = {| m_id := new_id; m_name := trim (pm_name b);
               m_description := trim <$> pm_description b;
               m_price := pm_price b; m_category := pm_category b;
               m_isAvailable := default true (pm_isAvailable b);
               m_imageUrl := trim <$> pm_imageUrl b |}
  /\ snd (post_menu tok b new_id w) = set_menu (<[new_id := item]> (menu w)) w.
Proof.
  unfold post_menu. destruct tok; simpl; try done.
  destruct (bool_decide _); [|done].
  destruct (validate_post_menu b); [|done].
  destruct (menu w !! new_id) eqn:Hm; [done|]. simpl. by intros [= <-].
Qed.

(** X17. A menu item that was created is found: after a 201 from
    [POST /api/menu], [GET /api/menu/:id] with the new id answers the item
    that was returned, which is available unless the body said otherwise and
    is on the public menu exactly when it is available; the id was free, the
    other items and the orders are as before. *)
Theorem created_menu_item_is_found tok b new_id w item :
  fst (post_menu tok b new_id w) = Json 201 (BMenuItem item) ->
  valid_oid new_id = true ->
  let w' := snd (post_menu tok b new_id w) in
  get_menu_item new_id w' = Json 200 (BMenuItem item)
  /\ m_id item = new_id
  /\ m_isAvailable item = default true (pm_isAvailable b)
  /\ (item ∈ get_menu w' <-> m_isAvailable item = true)
  /\ menu w !! new_id = None
  /\ (forall other, other <> new_id -> menu w' !! other = menu w !! other)
  /\ orders w' = orders w.
Proof.
  intros Hr Hv. cbv zeta.
  apply post_menu_accepted in Hr as (Hfree & Hitem & ->).
  assert (menu (set_menu (<[new_id := item]> (menu w)) w) !! new_id = Some item)
    as Hfound by (simpl; apply lookup_insert_eq).
  split. { unfold get_menu_item, MenuItem_findById. by rewrite Hv, Hfound. }
  split; [by rewrite Hitem|]. split; [by rewrite Hitem|].
  split.
  { rewrite elem_of_get_menu. split; [by intros [_ ?]|]. intros Hav.
    split; [by exists new_id|done]. }
  split; [done|]. split; [|done].
  intros other Hne. simpl. by apply lookup_insert_ne.
Qed.

Lemma post_order_bad_refused b new_id w :
  Exists (fun it => bad_reference w (r_menuItemId it)) (b_items b) ->
  refused (fst (post_order b new_id w)) /\ snd (post_order b new_id w) = w.
Proof.
  intros Hex. unfold post_order.
  destruct (validate_post_order b); [|simpl; split; [lia|done]].
  by destruct (build_order_items_bad w (b_items b) [] num_zero Hex) as (r & -> & Hr).
Qed.

(** X18. A deleted menu item is gone for every route: after a 200 from
    [DELETE /api/menu/:id] the item is not found by id (404), deleting it
    again answers 404, an order that names it is refused and changes
    nothing, while the other items and the stored orders are untouched. *)
Theorem deleted_menu_item_is_gone tok id w message :
  fst (delete_menu tok id w) = Json 200 (BMessage message) ->
  let w' := snd (delete_menu tok id w) in
  get_menu_item id w' = Json 404 (BMessage "Menu item not found.")
  /\ delete_menu tok id w' = (Json 404 (BMessage "Menu item not found."), w')
  /\ (forall b new_id,
        Exists (fun it => r_menuItemId it = id) (b_items b) ->
        refused (fst (post_order b new_id w')) /\ snd (post_order b new_id w') = w')
  /\ (forall other, other <> id -> menu w' !! other = menu w !! other)
  /\ orders w' = orders w.
Proof.
  unfold delete_menu. destruct (auth tok) eqn:Ha.
  { destruct tok; simpl in Ha; simplify_eq; done. }
  destruct (requireRole_admin tok) eqn:Hrole.
  { destruct tok; simpl in Hrole; try (simplify_eq; done).
    destruct (bool_decide _); simplify_eq; done. }
  unfold MenuItem_findById. destruct (valid_oid id) eqn:Hv; [|done].
  destruct (menu w !! id) eqn:Hm; [|done]. simpl. intros _.
  assert (delete id (menu w) !! id = None) as Hgone by apply lookup_delete_eq.
  split. { unfold get_menu_item, MenuItem_findById. simpl. by rewrite Hv, Hgone. }
  split. { by rewrite Hgone. }
  split.
  { intros b new_id Hex. apply post_order_bad_refused.
    eapply Exists_impl; [exact Hex|]. intros it ->.
    unfold bad_reference. simpl. by rewrite Hgone. }
  split; [|done]. intros other Hne. by apply lookup_delete_ne.
Qed.

(** What an accepted update of a menu item is. *)
Lemma put_menu_accepted tok id u w item :
  fst (put_menu tok id u w) = Json 200 (BMenuItem item) ->
  exists old,
    valid_oid id = true /\ menu w !! id = Some old
    /\ item = apply_updates u old
    /\ snd (put_menu tok id u w) = set_menu (<[id := item]> (menu w)) w.
Proof.
  unfold put_menu. destruct tok; simpl; try done.
  destruct (bool_decide _); [|done].
  destruct (validate_put_menu u); [|done].
  unfold MenuItem_findById. destruct (valid_oid id); [|done].
  destruct (menu w !! id) as [old|] eqn:Hm; [|done].
  destruct (update_invalid u); [done|]. simpl. intros [= <-]. by exists old.
Qed.

(** X19. [PUT /api/menu/:id] changes one existing item in place: it never
    adds or removes an item (the ids of the menu are the same afterwards,
    whatever it answers), an accepted update stores what it returns under
    the same id and leaves the other items and all orders alone, and a
    price it sets is the price the next order is charged. *)
Theorem menu_update_in_place tok id u w :
  let w' := snd (put_menu tok id u w) in
  dom (menu w') = dom (menu w)
  /\ orders w' = orders w
  /\ (forall other, other <> id -> menu w' !! other = menu w !! other)
  /\ (forall item,
        fst (put_menu tok id u w) = Json 200 (BMenuItem item) ->
        menu w' !! id = Some item
        /\ (exists old, menu w !! id = Some old /\ m_id item = m_id old)
        /\ (forall p q customer new_id,
              up_price u = Some p -> m_isAvailable item = true ->
              trim customer <> EmptyString -> id <> EmptyString ->
              isInt_min1 q = true ->
              List.find (has_id new_id) (orders w') = None ->
              exists o position,
                fst (post_order {| b_customerName := customer;
                                   b_items := [ {| r_menuItemId := id;
                                                   r_quantity := q |} ] |}
                                new_id w')
                = Json 201 (BOrderPos o position)
                /\ totalAmount o = num_add num_zero (num_mul p q)
                /\ map oi_price (items o) = [p])).
Proof.
  cbv zeta.
  assert ((exists item, fst (put_menu tok id u w) = Json 200 (BMenuItem item))
          \/ (snd (put_menu tok id u w) = w
              /\ forall item, fst (put_menu tok id u w) <> Json 200 (BMenuItem item)))
    as [[item Hr]|[Hsame Hnot]].
  { unfold put_menu.
    destruct (auth tok) eqn:Ha.
    { right. split; [done|]. intros item Heq. simpl in Heq. subst.
      apply auth_refused in Ha. simpl in Ha. lia. }
    destruct (requireRole_admin tok) eqn:Hrole.
    { right. split; [done|]. intros item Heq. simpl in Heq. subst.
      apply requireRole_refused in Hrole. simpl in Hrole. lia. }
    destruct (validate_put_menu u); [|right; split; [done|by intros ?]].
    destruct (MenuItem_findById id w) as [|[old|]];
      try (right; split; [done|by intros ?]).
    destruct (update_invalid u); [right; split; [done|by intros ?]|].
    left. by eexists. }
  - pose proof Hr as Hacc.
    apply put_menu_accepted in Hacc as (old & Hv & Hold & Hitem & ->).
    simpl. split; [apply dom_insert_lookup_L; by eexists|].
    split; [done|].
    split; [intros other Hne; by apply lookup_insert_ne|].
    intros item' Hr'. rewrite Hr in Hr'. injection Hr' as <-.
    split; [apply lookup_insert_eq|].
    split; [exists old; split; [done|by rewrite Hitem]|].
    intros p q customer new_id Hp Hav Hname Hid Hq Hfresh.
    assert (m_price item = p) as Hprice.
    { rewrite Hitem. simpl. by rewrite Hp. }
    unfold post_order, validate_post_order. simpl.
    unfold is_empty.
    rewrite (bool_decide_eq_false_2 _ Hname), (bool_decide_eq_false_2 _ Hid), Hq.
    simpl. unfold MenuItem_findById. simpl.
    rewrite Hv, lookup_insert_eq, Hav. simpl.
    unfold Order_create. simpl in Hfresh. simpl. rewrite Hfresh. simpl.
    eexists _, _. split; [reflexivity|]. simpl. by rewrite Hprice.
  - rewrite Hsame. split; [done|]. split; [done|]. split; [done|].
    intros item Hr. by apply Hnot in Hr.
Qed.


(** ** The cart *)

Lemma change_first_ids id f its :
  (forall it, ci_menuItemId (f it) = ci_menuItemId it) ->
  map ci_menuItemId (change_first id f its) = map ci_menuItemId its.
Proof.
  intros Hf. induction its as [|it its IH]; simpl; [done|].
  destruct (in_cart id it); simpl; [by rewrite Hf|by rewrite IH].
Qed.

Lemma change_first_found id f its it :
  List.find (in_cart id) its = Some it ->
  f it ∈ change_first id f its
  /\ length (change_first id f its) = length its
  /\ (forall other, other ∈ its -> ci_menuItemId other <> id ->
        other ∈ change_first id f its).
Proof.
  induction its as [|x its IH]; simpl; [done|].
  destruct (in_cart id x) eqn:Hx.
  - intros [= ->]. split; [by left|]. split; [done|].
    intros other Hin Hne. apply elem_of_cons in Hin as [->|Hin]; [|by right].
    unfold in_cart in Hx. by apply bool_decide_eq_true in Hx.
  - intros Hf. destruct (IH Hf) as (Hin & Hlen & Hothers).
    split; [by right|]. split; [simpl; by rewrite Hlen|].
    intros other Ho Hne. apply elem_of_cons in Ho as [->|Ho]; [by left|].
    right. by apply Hothers.
Qed.

Lemma find_in_cart_None id its :
  List.find (in_cart id) its = None <-> id ∉ map ci_menuItemId its.
Proof.
  induction its as [|x its IH]; simpl.
  - split; [intros _; apply not_elem_of_nil|done].
  - unfold in_cart at 1. destruct (bool_decide (ci_menuItemId x = id)) eqn:Hx.
    + apply bool_decide_eq_true in Hx. split; [done|].
      intros Hnot. exfalso. apply Hnot. rewrite Hx. by left.
    + apply bool_decide_eq_false in Hx. rewrite IH. split.
      * intros Hnot Hin. apply elem_of_cons in Hin as [Hin|Hin]; [congruence|done].
      * intros Hnot Hin. apply Hnot. by right.
Qed.

Lemma filter_out_ids id its :
  id ∉ map ci_menuItemId (List.filter (fun i => negb (in_cart id i)) its).
Proof.
  intros Hin. change (id ∈ ci_menuItemId <$> List.filter (fun i => negb (in_cart id i)) its) in Hin.
  apply list_elem_of_fmap in Hin as (it & -> & Hit).
  apply list_elem_of_In, filter_In in Hit as [_ Hit].
  unfold in_cart in Hit. by rewrite bool_decide_eq_true_2 in Hit.
Qed.

Lemma filter_out_absent id its :
  id ∉ map ci_menuItemId its ->
  List.filter (fun i => negb (in_cart id i)) its = its.
Proof.
  induction its as [|x its IH]; simpl; [done|]. intros Hnot.
  unfold in_cart at 1. rewrite bool_decide_eq_false_2.
  - simpl. f_equal. apply IH. intros Hin. apply Hnot. by right.
  - intros Hx. apply Hnot. rewrite Hx. by left.
Qed.


Section CartProperties.
Variable toFixed2 : num -> num.

Lemma cart_effects tok id q w :
  CartEffect tok w (snd (cart_get toFixed2 tok w))
  /\ CartEffect tok w (snd (cart_add toFixed2 tok id q w))
  /\ CartEffect tok w (snd (cart_update toFixed2 tok id q w))
  /\ CartEffect tok w (snd (cart_remove toFixed2 tok id w))
  /\ CartEffect tok w (snd (cart_clear tok w)).
Proof.
  unfold cart_get, cart_add, cart_update, cart_remove, cart_clear.
  destruct (userAuth tok) as [r|uid] eqn:Hu; [repeat split; constructor|].
  repeat split.
  - destruct (carts w !! uid); constructor.
  - destruct (validate_cart_add id q); [|constructor].
    destruct (MenuItem_findById id w) as [|[m|]]; try constructor.
    destruct (negb _); [constructor|]. by constructor.
  - destruct (negb _); [constructor|].
    destruct (carts w !! uid); [|constructor].
    destruct (List.find _ _); [by constructor|constructor].
  - destruct (carts w !! uid); [|constructor].
    destruct (_ =? _)%nat; [constructor|by constructor].
  - destruct (carts w !! uid); [|constructor]. by constructor.
Qed.

(** X20. The cart routes write one thing only, the cart of the customer that
    the token names: orders, menu, users and the carts of everybody else
    are as before, and a request answered with an error changes nothing at
    all. *)
Theorem cart_routes_write_one_cart tok id q w :
  let contained (p : CartReply * World) :=
    only_carts_change w (snd p)
    /\ (forall other, userAuth tok <> inr other ->
          carts (snd p) !! other = carts w !! other)
    /\ (forall r, fst p = Plain r -> snd p = w) in
  contained (cart_get toFixed2 tok w)
  /\ contained (cart_add toFixed2 tok id q w)
  /\ contained (cart_update toFixed2 tok id q w)
  /\ contained (cart_remove toFixed2 tok id w)
  /\ contained (cart_clear tok w).
Proof.
  cbv zeta.
  assert (forall w', CartEffect tok w w' ->
            only_carts_change w w'
            /\ (forall other, userAuth tok <> inr other ->
                  carts w' !! other = carts w !! other)) as Heff.
  { intros w' [|uid its Hu].
    - split; [|done]. exists (carts w). by destruct w.
    - split; [by eexists|]. intros other Hne. simpl.
      apply lookup_insert_ne. congruence. }
  destruct (cart_effects tok id q w) as (Hget & Hadd & Hupd & Hrem & Hclr).
  repeat split; try (by apply Heff); intros r;
    unfold cart_get, cart_add, cart_update, cart_remove, cart_clear;
    repeat case_match; simpl; congruence.
Qed.




(** X23. Updating a cart item sets its quantity and nothing else; removing
    one deletes every entry of that item and keeps the others in order; for
    an item that is not in the cart both answer 404 and change nothing. *)
Theorem cart_update_and_remove tok uid id q its w :
  userAuth tok = inr uid ->
  carts w !! uid = Some its ->
  isInt_min1 q = true ->
  (id ∉ map ci_menuItemId its ->
   cart_update toFixed2 tok id q w
   = (Plain (Json 404 (BMessage "Item not found in cart. Add it first.")), w)
   /\ cart_remove toFixed2 tok id w
      = (Plain (Json 404 (BMessage "Item not found in cart.")), w))
  /\ (id ∈ map ci_menuItemId its ->
      (exists its',
         carts (snd (cart_update toFixed2 tok id q w)) !! uid = Some its'
         /\ map ci_menuItemId its' = map ci_menuItemId its
         /\ {| ci_menuItemId := id; ci_quantity := q |} ∈ its'
         /\ (forall other, other ∈ its -> ci_menuItemId other <> id ->
               other ∈ its'))
      /\ carts (snd (cart_remove toFixed2 tok id w)) !! uid
         = Some (List.filter (fun i => negb (in_cart id i)) its)
      /\ id ∉ map ci_menuItemId (List.filter (fun i => negb (in_cart id i)) its)).
Proof.
  intros Hu Hc Hq. unfold cart_update, cart_remove. rewrite Hu, Hc, Hq. simpl.
  split.
  - intros Hnot. apply find_in_cart_None in Hnot as Hf. rewrite Hf.
    rewrite (filter_out_absent id its Hnot), Nat.eqb_refl. done.
  - intros Hin.
    destruct (List.find (in_cart id) its) as [old|] eqn:Hf.
    2:{ apply find_in_cart_None in Hf. done. }
    split.
    { eexists. split; [simpl; apply lookup_insert_eq|].
      split; [by apply change_first_ids|].
      destruct (change_first_found id (set_quantity q) its old Hf)
        as (Hnew & _ & Hothers).
      split; [|done].
      apply find_some in Hf as [_ Hold]. unfold in_cart in Hold.
      apply bool_decide_eq_true in Hold. unfold set_quantity in Hnew.
      by rewrite Hold in Hnew. }
    split; [|apply filter_out_ids].
    destruct (length (List.filter _ its) =? length its)%nat eqn:Hlen.
    + exfalso. apply Nat.eqb_eq in Hlen.
      change (id ∈ ci_menuItemId <$> its) in Hin.
      apply list_elem_of_fmap in Hin as (it & -> & Hit).
      pose proof (filter_length_lt (fun i => negb (in_cart (ci_menuItemId it) i))
                    its it Hit) as Hlt.
      unfold in_cart at 1 in Hlt. rewrite bool_decide_eq_true_2 in Hlt by done.
      specialize (Hlt eq_refl). lia.
    + simpl. apply lookup_insert_eq.
Qed.




Lemma populate_lines w its pacc g c :
  exists lines g' c',
    populate w its pacc g c = (pacc ++ lines, g', c')
    /\ Forall (fun line => exists it, it ∈ its
                 /\ menu w !! ci_menuItemId it = Some (cl_menuItem line)
                 /\ cl_quantity line = ci_quantity it) lines
    /\ (length lines <= length its)%nat
    /\ (Exists (fun it => menu w !! ci_menuItemId it = None) its ->
        (length lines < length its)%nat).
Proof.
  revert pacc g c. induction its as [|it its IH]; intros pacc g c; simpl.
  - exists [], g, c. rewrite app_nil_r. split; [done|]. split; [done|].
    split; [done|]. intros Hex. by apply Exists_nil in Hex.
  - destruct (menu w !! ci_menuItemId it) as [m|] eqn:Hm.
    + destruct (IH (pacc ++ [ {| cl_menuItem := m; cl_quantity := ci_quantity it;
                                 cl_lineTotal := num_mul (m_price m) (ci_quantity it) |} ])
                   (num_add g (num_mul (m_price m) (ci_quantity it)))
                   (num_add c (ci_quantity it)))
        as (lines & g' & c' & -> & Hall & Hle & Hlt).
      eexists (_ :: lines), g', c'. rewrite <- app_assoc.
      split; [done|]. split.
      { constructor.
        - exists it. split; [by left|done].
        - eapply Forall_impl; [exact Hall|]. intros line (x & Hx & ?).
          exists x. split; [by right|done]. }
      split; [simpl; lia|]. intros Hex.
      apply Exists_cons in Hex as [Hex|Hex]; [congruence|].
      specialize (Hlt Hex). simpl. lia.
    + destruct (IH pacc g c) as (lines & g' & c' & -> & Hall & Hle & Hlt).
      exists lines, g', c'. split; [done|]. split.
      { eapply Forall_impl; [exact Hall|]. intros line (x & Hx & ?).
        exists x. split; [by right|done]. }
      split; [lia|]. intros _. lia.
Qed.

(** X25. The cart view silently leaves out an item whose catalog entry was
    deleted, and the order route then refuses the cart: for a cart holding
    such an item, [GET /api/cart] answers a view with fewer lines than the
    cart has entries, every line naming an existing catalog entry, while
    [POST /from-cart] is refused and changes nothing. *)
Theorem cart_view_hides_deleted_items tok uid user its new_id w :
  userAuth tok = inr uid ->
  users w !! uid = Some user ->
  carts w !! uid = Some its ->
  Exists (fun it => menu w !! ci_menuItemId it = None) its ->
  (exists v,
     cart_get toFixed2 tok w = (View v, w)
     /\ (length (cv_items v) < length its)%nat
     /\ Forall (fun line => exists it, it ∈ its
                  /\ menu w !! ci_menuItemId it = Some (cl_menuItem line)
                  /\ cl_quantity line = ci_quantity it) (cv_items v))
  /\ refused (fst (post_from_cart tok new_id w))
  /\ snd (post_from_cart tok new_id w) = w.
Proof.
  intros Hu Huser Hc Hex. split.
  - unfold cart_get, buildCartResponse. rewrite Hu, Hc.
    destruct (populate_lines w its [] num_zero num_zero)
      as (lines & g & c & -> & Hall & _ & Hlt).
    eexists. split; [reflexivity|]. simpl. split; [by apply Hlt|done].
  - unfold post_from_cart. rewrite Hu, Huser, Hc.
    destruct its as [|ci cis]; [by apply Exists_nil in Hex|].
    assert (Exists (fun it => bad_reference w (ci_menuItemId it)) (ci :: cis))
      as Hbad.
    { eapply Exists_impl; [exact Hex|]. intros it Hit.
      unfold bad_reference. by rewrite Hit. }
    by destruct (build_cart_items_bad w (ci :: cis) [] num_zero Hbad)
      as (r & -> & Hr).
Qed.

Lemma populate_follows_build w its acc total pacc c items' total' :
  build_cart_items w its acc total = inr (items', total') ->
  exists new lines c',
    items' = acc ++ new
    /\ populate w its pacc total c = (pacc ++ lines, total', c')
    /\ map cl_lineTotal lines
       = map (fun oi => num_mul (oi_price oi) (oi_quantity oi)) new
    /\ map cl_menuItem lines
       = omap (fun it => menu w !! ci_menuItemId it) its.
Proof.
  revert acc total pacc c. induction its as [|it its IH];
    intros acc total pacc c Hb; simpl in *.
  - injection Hb as <- <-. exists [], [], c. by rewrite !app_nil_r.
  - destruct (menu w !! ci_menuItemId it) as [m|] eqn:Hm; [|done].
    destruct (m_isAvailable m); [|done]. simpl in Hb.
    apply (IH _ _ (pacc ++ [ {| cl_menuItem := m; cl_quantity := ci_quantity it;
                                cl_lineTotal := num_mul (m_price m) (ci_quantity it) |} ])
              (num_add c (ci_quantity it))) in Hb
      as (new & lines & c' & -> & -> & Htot & Hitems).
    eexists (_ :: new), (_ :: lines), c'. rewrite <- !app_assoc.
    split; [done|]. split; [done|]. simpl. by rewrite Htot, Hitems.
Qed.

(** X26. What the cart shows is what the order charges: whenever
    [POST /from-cart] would be accepted, the view of [GET /api/cart] has one
    line per line item of the order, with the same line totals, and its
    grand total is the [totalAmount] of the order rounded to two decimals. *)
Theorem cart_total_is_order_total tok new_id w o q :
  fst (post_from_cart tok new_id w) = Json 201 (BOrderPos o q) ->
  exists v,
    cart_get toFixed2 tok w = (View v, w)
    /\ cv_grandTotal v = toFixed2 (totalAmount o)
    /\ map cl_lineTotal (cv_items v)
       = map (fun oi => num_mul (oi_price oi) (oi_quantity oi)) (items o)
    /\ length (cv_items v) = length (items o).
Proof.
  unfold post_from_cart, cart_get, buildCartResponse.
  destruct (userAuth tok) as [r|uid] eqn:Hu.
  { simpl. intros ->. apply userAuth_refused in Hu. simpl in Hu. lia. }
  destruct (users w !! uid) as [user|]; [|done].
  destruct (carts w !! uid) as [[|ci cis]|] eqn:Hc; [done| |done].
  destruct (build_cart_items w _ _ _) as [r|[its total]] eqn:Hb.
  { simpl. intros ->. apply build_cart_items_inl in Hb.
    by apply refused_not_201 in Hb. }
  apply (populate_follows_build w _ _ _ [] num_zero) in Hb
    as (new & lines & c' & -> & -> & Htot & _).
  unfold Order_create. destruct (List.find _ _); [done|]. simpl.
  intros [= <- _]. eexists. split; [reflexivity|]. simpl.
  split; [done|]. split; [done|].
  rewrite <- (length_map cl_lineTotal lines), Htot. by rewrite length_map.
Qed.

End CartProperties.


(** ** Deleting the account *)

(** X27. Deleting the account removes the customer and the cart and nothing
    else: the orders placed stay in the collection, still carrying the id of
    the deleted customer, and the token, which stays valid, still lists them
    with [GET /my], while [POST /from-cart] now answers 404 and changes
    nothing; other customers and their carts are untouched. *)
Theorem deleted_account_keeps_its_orders tok uid w :
  userAuth tok = inr uid ->
  let w' := snd (delete_me tok w) in
  fst (delete_me tok w) = Json 200 (BMessage "Account deleted successfully.")
  /\ users w' !! uid = None /\ carts w' !! uid = None
  /\ (forall other, other <> uid ->
        users w' !! other = users w !! other
        /\ carts w' !! other = carts w !! other)
  /\ orders w' = orders w /\ menu w' = menu w
  /\ (forall q_status, fst (get_my tok q_status w') = fst (get_my tok q_status w))
  /\ (forall new_id, post_from_cart tok new_id w'
                     = (Json 404 (BMessage "User not found."), w')).
Proof.
  intros Hu. cbv zeta. unfold delete_me. rewrite Hu. simpl.
  split; [done|]. split; [apply lookup_delete_eq|].
  split; [apply lookup_delete_eq|].
  split.
  { intros other Hne. split; by apply lookup_delete_ne. }
  split; [done|]. split; [done|]. split.
  - intros q_status. unfold get_my. by rewrite Hu.
  - intros new_id. unfold post_from_cart. rewrite Hu. simpl.
    by rewrite lookup_delete_eq.
Qed.


(** ** What the socket module publishes *)

Lemma outcome_offline w w' :
  Outcome w w' -> io w = None ->
  io w' = None /\ outbox w' = outbox w /\ in_flight w' = in_flight w.
Proof.
  intros [|m|o cs _ _|order st _ _] Hio; try done.
  - unfold emitQueueUpdate. simpl. rewrite Hio. simpl. auto.
  - unfold emitQueueUpdate, emitOrderReady, Order_save.
    destruct (bool_decide (st = ready)); simpl; rewrite ?Hio; simpl;
      rewrite ?Hio; simpl; auto.
Qed.

(** X28. Without [initSocket] nothing is ever published or scheduled: from a
    world whose socket handle is unset, any run without a call of
    [initSocket] leaves the handle unset and the outbox as it was, and
    starts no broadcast. *)
Theorem nothing_published_offline es w :
  io w = None -> Forall not_init es ->
  io (run es w) = None
  /\ outbox (run es w) = outbox w
  /\ (in_flight (run es w) <= in_flight w)%nat.
Proof.
  revert w. induction es as [|e es IH]; intros w Hio Hes; [done|].
  apply Forall_cons in Hes as [He Hes]. rewrite run_cons.
  assert (io (step e w) = None /\ outbox (step e w) = outbox w
          /\ (in_flight (step e w) <= in_flight w)%nat) as (Hio' & Ho & Hf).
  { destruct e as [ms|d|r| |us cs]; simpl in *; try done.
    - pose proof (outcome_offline w _ (handle_outcome r w) Hio) as (? & ? & ?).
      split; [done|]. split; [done|lia].
    - unfold emitQueueUpdate_resume. destruct (in_flight w) eqn:Hn; [repeat split; auto with lia|].
      rewrite Hio. simpl. split; [done|]. split; [done|lia]. }
  destruct (IH (step e w) Hio' Hes) as (? & ? & ?).
  split; [done|]. split; [congruence|lia].
Qed.


Lemma emitOrderReady_routed id w :
  exists ms, outbox (emitOrderReady id w) = outbox w ++ ms
    /\ Forall well_routed ms.
Proof.
  unfold emitOrderReady. destruct (io w).
  - eexists [_; _]. simpl. rewrite <- app_assoc. split; [done|].
    by repeat constructor.
  - exists []. by rewrite app_nil_r.
Qed.

Lemma queue_messages_routed qd : Forall well_routed (queue_messages qd).
Proof.
  unfold queue_messages. apply Forall_app. split; [by repeat constructor|].
  apply Forall_app. split; [|by repeat constructor].
  apply Forall_forall. intros m Hm.
  change (m ∈ position_message <$> qd) in Hm.
  by apply list_elem_of_fmap in Hm as (entry & -> & _).
Qed.

Lemma step_routed e w :
  exists ms, outbox (step e w) = outbox w ++ ms /\ Forall well_routed ms.
Proof.
  assert (exists ms, outbox w = outbox w ++ ms /\ Forall well_routed ms)
    as Hsame by (exists []; by rewrite app_nil_r).
  destruct e as [ms|d|r| |us cs]; simpl; try done.
  - destruct (handle_outcome r w) as [|m|o cs _ _|order st _ _];
      rewrite ?outbox_emitQueueUpdate; try done.
    destruct (bool_decide (st = ready)); [|done].
    apply (emitOrderReady_routed _ (Order_save _ w)).
  - unfold emitQueueUpdate_resume. destruct (in_flight w); [done|].
    destruct (io w); [|done].
    rewrite outbox_foldl_publish. eexists. split; [done|].
    apply queue_messages_routed.
Qed.

(** X29. A channel carries only what belongs to it: whatever a run
    publishes, a message on the channel of an order is a position or a ready
    signal of that very order, and a queue list only goes to the global or
    the kitchen channel, each under its own event name. *)
Theorem messages_stay_on_their_channel es w :
  outbox w `prefix_of` outbox (run es w)
  /\ Forall well_routed (published_by w (run es w)).
Proof.
  assert (exists ms, outbox (run es w) = outbox w ++ ms /\ Forall well_routed ms)
    as (ms & Ho & Hms).
  { revert w. induction es as [|e es IH]; intros w.
    - exists []. by rewrite app_nil_r.
    - rewrite run_cons. destruct (step_routed e w) as (ms1 & Ho1 & Hms1).
      destruct (IH (step e w)) as (ms2 & Ho2 & Hms2).
      exists (ms1 ++ ms2). split; [by rewrite Ho2, Ho1, app_assoc|].
      by apply Forall_app. }
  split; [by exists ms|]. by rewrite (published_by_app _ _ ms).
Qed.


Lemma in_flight_emitOrderReady id w :
  in_flight (emitOrderReady id w) = in_flight w
  /\ io (emitOrderReady id w) = io w
  /\ orders (emitOrderReady id w) = orders w.
Proof.
  unfold emitOrderReady. destruct (io w) eqn:Hio; repeat split; simpl; auto.
Qed.

(** X30. With the socket set up, a handler starts a broadcast exactly when
    it changed the order collection: one more broadcast is pending after a
    request that created an order or changed a status, and the same number
    after any other request. *)
Theorem broadcast_exactly_on_change r w deliver :
  io w = Some deliver ->
  (orders (snd (handle r w)) = orders w ->
   in_flight (snd (handle r w)) = in_flight w)
  /\ (orders (snd (handle r w)) <> orders w ->
      in_flight (snd (handle r w)) = S (in_flight w)).
Proof.
  intros Hio.
  destruct (handle_outcome r w) as [|m|o cs _ _|order st Hf Hst]; try done.
  - split; intros Ho.
    + exfalso. revert Ho. unfold emitQueueUpdate. simpl. rewrite Hio. simpl.
      intros Ho. apply (f_equal length) in Ho. rewrite length_app in Ho.
      simpl in Ho. lia.
    + unfold emitQueueUpdate. simpl. by rewrite Hio.
  - set (saved := Order_save (with_status st (clock w) order) w).
    set (w1 := (if bool_decide (st = ready)
                then emitOrderReady (_id order) else fun w' => w') saved).
    assert (in_flight w1 = in_flight w /\ io w1 = io w
            /\ orders w1 = orders saved) as (Hn & Hio1 & Ho1).
    { unfold w1. destruct (bool_decide (st = ready)); [|done].
      destruct (in_flight_emitOrderReady (_id order) saved) as (-> & -> & ->).
      done. }
    assert (orders (emitQueueUpdate w1) = orders saved) as Ho2.
    { unfold emitQueueUpdate. by destruct (io w1). }
    split; intros Ho.
    + exfalso. rewrite Ho2 in Ho.
      pose proof (find_saved (_id order) order (with_status st (clock w) order)
                    w Hf eq_refl) as Hsaved.
      fold saved in Hsaved. rewrite Ho, Hf in Hsaved.
      injection Hsaved as Heq. apply (f_equal status) in Heq. simpl in Heq.
      rewrite Heq in Hst. by apply not_own_successor in Hst.
    + unfold emitQueueUpdate. rewrite Hio1, Hio. simpl. by rewrite Hn.
Qed.

End MoreProperties.

(** * Instances on the sample shop *)

#[local] Existing Instance demo_platform.
Import Demo.

Example same_tick_stamps :
  map (fun o => (customerName o, createdAt o)) (orders (run two_in_one_tick shop))
  = [ ("Ann", 1000); ("Bob", 1000) ].
Proof. vm_compute. reflexivity. Qed.

Example same_tick_positions :
  map (fun o => (customerName o, getQueuePosition o (run two_in_one_tick shop)))
      (active_set (run two_in_one_tick shop))
  = [ ("Ann", 1%nat); ("Bob", 1%nat) ]
  /\ map (fun e => (q_customerName e, q_queuePosition e))
         (queueData (run two_in_one_tick shop))
     = [ ("Ann", 1%nat); ("Bob", 2%nat) ].
Proof. split; vm_compute; reflexivity. Qed.

Example spaced_positions :
  map (fun o => (customerName o, getQueuePosition o (run three_spaced shop)))
      (active_set (run three_spaced shop))
  = [ ("Ann", 1%nat); ("Bob", 2%nat); ("Cat", 3%nat) ].
Proof. vm_compute. reflexivity. Qed.

(** A transport that delivers nothing changes neither response nor orders. *)
Example lossy_transport :
  fst (handle (PatchStatus staff id_A "ready") (set_io (Some (fun _ => false)) ann_preparing))
  = fst (handle (PatchStatus staff id_A "ready") ann_preparing)
  /\ delivered (snd (handle (PatchStatus staff id_A "ready")
                       (set_io (Some (fun _ => false)) ann_preparing))) = []
  /\ length (delivered (snd (handle (PatchStatus staff id_A "ready") ann_preparing)))
     = 2%nat.
Proof. repeat split; vm_compute; reflexivity. Qed.

(** Two orders placed within one reading of the clock carry the same creation
    stamp: creation keys are not unique. *)
Lemma same_tick_same_stamp :
  ~ creation_keys_unique (run two_in_one_tick shop).
Proof.
  unfold creation_keys_unique. vm_compute map. intros Hnd.
  apply NoDup_cons in Hnd as [Hnotin _]. apply Hnotin. by left.
Qed.

Lemma creation_stamps_follow_clock_witness :
  ids_unique shop /\ chronological shop
  /\ ids_unique (run three_spaced shop)
  /\ sort_by created_asc (orders (run three_spaced shop))
     = orders (run three_spaced shop).
Proof.
  assert (ids_unique shop) as Hids by (vm_compute; constructor).
  assert (chronological shop) as Hchr by (vm_compute; split; constructor).
  split; [exact Hids|]. split; [exact Hchr|].
  pose proof (creation_stamps_follow_clock three_spaced shop Hids Hchr) as Hthm.
  cbv zeta in Hthm. split; [apply Hthm|apply Hthm].
Defined.



Lemma transition_exactly_when_allowed_witness :
  auth staff = None
  /\ Order_findById id_A ann_waiting = Found (Some (order_A pending))
  /\ fst (patch_status staff id_A "preparing" ann_waiting)
     = Json 200 (BOrder (order_A preparing))
  /\ patch_status staff id_A "ready" ann_waiting
     = (Json 400 (BMessage
          ("Cannot transition from " +:+ dq +:+ "pending" +:+ dq +:+ " to "
           +:+ dq +:+ "ready" +:+ dq +:+ ". Allowed next status: preparing")),
        ann_waiting).
Proof.
  assert (auth staff = None) as Hauth by reflexivity.
  assert (Order_findById id_A ann_waiting = Found (Some (order_A pending)))
    as Hfind by (vm_compute; reflexivity).
  split; [exact Hauth|]. split; [exact Hfind|]. split.
  - destruct (transition_exactly_when_allowed staff id_A (order_A pending)
                preparing ann_waiting Hauth Hfind) as (_ & Hok & _).
    apply Hok. simpl. by left.
  - destruct (transition_exactly_when_allowed staff id_A (order_A pending)
                ready ann_waiting Hauth Hfind) as (_ & _ & Hno).
    apply Hno. simpl. intros Hin.
    apply elem_of_cons in Hin as [Hin|Hin]; [done|by apply elem_of_nil in Hin].
Defined.

(** Signalling readiness publishes on the global channel too. *)
Lemma ready_reaches_global_channel :
  ~ Forall (fun m => msg_channel m = ChOrder id_A)
      (published_by ann_preparing
         (snd (patch_status staff id_A "ready" ann_preparing))).
Proof.
  vm_compute published_by. intros Hall.
  apply Forall_cons in Hall as [_ Hall]. apply Forall_cons in Hall as [Hg _].
  discriminate Hg.
Qed.

Lemma ready_signal_witness :
  auth staff = None /\ io ann_preparing = Some (fun _ => true)
  /\ Order_findById id_A ann_preparing = Found (Some (order_A preparing))
  /\ status (order_A preparing) = preparing
  /\ published_by ann_preparing
       (snd (patch_status staff id_A "ready" ann_preparing))
     = [ {| msg_channel := ChOrder id_A; msg_event := "order:ready";
            msg_payload := PReady id_A |};
         {| msg_channel := ChGlobal; msg_event := "queue:update";
            msg_payload := PQueue [] |} ].
Proof.
  assert (auth staff = None) as Hauth by reflexivity.
  assert (io ann_preparing = Some (fun _ => true)) as Hio by reflexivity.
  assert (Order_findById id_A ann_preparing = Found (Some (order_A preparing)))
    as Hfind by (vm_compute; reflexivity).
  assert (status (order_A preparing) = preparing) as Hst by reflexivity.
  split; [exact Hauth|]. split; [exact Hio|]. split; [exact Hfind|].
  split; [exact Hst|].
  exact (proj1 (proj2 (ready_signal staff id_A (order_A preparing) _
                         ann_preparing Hauth Hio Hfind Hst))).
Defined.



Lemma total_is_sum_of_snapshots_witness :
  ids_unique shop
  /\ fst (handle (PostOrder (one_tea "Ann") id_A) shop)
     = Json 201 (BOrderPos (order_A pending) (Some 1%nat))
  /\ totalAmount (order_A pending) = items_total (items (order_A pending))
  /\ exists o',
       List.find (has_id id_A)
         (orders (run tea_repriced_then_deleted
                    (snd (handle (PostOrder (one_tea "Ann") id_A) shop))))
       = Some o'
       /\ items o' = items (order_A pending)
       /\ totalAmount o' = totalAmount (order_A pending).
Proof.
  assert (ids_unique shop) as Hids by (vm_compute; constructor).
  assert (fst (handle (PostOrder (one_tea "Ann") id_A) shop)
          = Json 201 (BOrderPos (order_A pending) (Some 1%nat))) as Hr
    by (vm_compute; reflexivity).
  split; [exact Hids|]. split; [exact Hr|].
  pose proof (total_is_sum_of_snapshots _ shop _ _ tea_repriced_then_deleted
                Hids Hr) as (Htotal & _ & _ & Hkeep).
  split; [exact Htotal|exact Hkeep].
Defined.

Lemma creation_refused_wholesale_witness :
  userAuth (UserToken id_user) = inr id_user
  /\ snd (post_order {| b_customerName := "Ann"; b_items := [] |} id_A shop) = shop
  /\ snd (post_from_cart (UserToken id_user) id_A
            (run [ Call (DeleteMenu boss id_tea) ] shop))
     = run [ Call (DeleteMenu boss id_tea) ] shop.
Proof.
  assert (userAuth (UserToken id_user) = inr id_user) as Hu by reflexivity.
  split; [exact Hu|]. split.
  - destruct (creation_refused_wholesale
                {| b_customerName := "Ann"; b_items := [] |} id_A
                (UserToken id_user) id_user shop Hu) as [Hpost _].
    apply Hpost. by left.
  - destruct (creation_refused_wholesale (one_tea "Ann") id_A
                (UserToken id_user) id_user
                (run [ Call (DeleteMenu boss id_tea) ] shop) Hu) as [_ Hcart].
    apply Hcart. right. right.
    exists [ two_teas ].
    split; [vm_compute; reflexivity|].
    apply Exists_cons. left. vm_compute. exact I.
Defined.

Lemma mutation_independent_of_transport_witness :
  same_data shop shop_lossy
  /\ fst (handle (PostOrder (one_tea "Ann") id_A) shop)
     = fst (handle (PostOrder (one_tea "Ann") id_A) shop_lossy)
  /\ same_data (snd (handle (PostOrder (one_tea "Ann") id_A) shop))
               (snd (handle (PostOrder (one_tea "Ann") id_A) shop_lossy)).
Proof.
  assert (same_data shop shop_lossy) as Hs by (by repeat split).
  split; [exact Hs|].
  destruct (mutation_independent_of_transport
              (PostOrder (one_tea "Ann") id_A) shop shop_lossy Hs)
    as (Hr & Hd & _).
  split; [exact Hr|exact Hd].
Defined.

Example offline_same_response :
  fst (handle (PostOrder (one_tea "Ann") id_A) shop_offline)
  = Json 201 (BOrderPos (order_A pending) (Some 1%nat))
  /\ orders (snd (handle (PostOrder (one_tea "Ann") id_A) shop_offline))
     = [ order_A pending ]
  /\ outbox (snd (handle (PostOrder (one_tea "Ann") id_A) shop_offline)) = [].
Proof. repeat split; vm_compute; reflexivity. Qed.


(** * More instances on the sample shop *)

Lemma status_change_is_one_step_witness :
  fst (patch_status staff id_A "preparing" ann_waiting)
  = Json 200 (BOrder (order_A preparing))
  /\ exists order order',
       List.find (has_id id_A) (orders ann_waiting) = Some order
       /\ stage (status order') = S (stage (status order)).
Proof.
  assert (fst (patch_status staff id_A "preparing" ann_waiting)
          = Json 200 (BOrder (order_A preparing))) as Hok
    by (vm_compute; reflexivity).
  split; [exact Hok|].
  destruct (status_change_is_one_step staff id_A "preparing" ann_waiting _ Hok)
    as (order & order' & Hf & _ & Hst & _).
  exists order, order'. split; [exact Hf|exact Hst].
Defined.

Lemma menu_writes_need_admin_witness :
  staff <> AdminToken "admin"
  /\ snd (delete_menu staff id_tea shop) = shop.
Proof.
  assert (staff <> AdminToken "admin") as Hne by (unfold staff; congruence).
  split; [exact Hne|].
  pose proof (menu_writes_need_admin staff new_cake id_cake id_tea price_75 shop Hne)
    as Hthm.
  cbv zeta in Hthm. destruct Hthm as (_ & _ & (message & _ & Hw)). exact Hw.
Defined.

Lemma post_order_accepts_witness :
  validate_post_order (one_tea "Ann") = []
  /\ List.find (has_id id_A) (orders shop) = None
  /\ exists o,
       orders (snd (post_order (one_tea "Ann") id_A shop)) = orders shop ++ [o]
       /\ status o = pending.
Proof.
  assert (validate_post_order (one_tea "Ann") = []) as Hv
    by (vm_compute; reflexivity).
  assert (List.find (has_id id_A) (orders shop) = None) as Hnew by reflexivity.
  assert (Forall (fun it => valid_oid (r_menuItemId it) = true
                            /\ exists m, menu shop !! r_menuItemId it = Some m
                                         /\ m_isAvailable m = true)
                 (b_items (one_tea "Ann"))) as Hitems.
  { constructor; [|constructor]. split; [vm_compute; reflexivity|].
    exists tea. split; [vm_compute; reflexivity|reflexivity]. }
  split; [exact Hv|]. split; [exact Hnew|].
  destruct (post_order_accepts (one_tea "Ann") id_A shop Hv Hitems Hnew)
    as (o & _ & Ho & _ & Hst & _).
  exists o. split; [exact Ho|exact Hst].
Defined.

Lemma position_within_queue_witness :
  order_A pending ∈ orders ann_waiting
  /\ is_active (status (order_A pending)) = true
  /\ (1 <= getQueuePosition (order_A pending) ann_waiting
      <= length (active_set ann_waiting))%nat.
Proof.
  assert (order_A pending ∈ orders ann_waiting) as Hin
    by (vm_compute; apply list_elem_of_here).
  assert (is_active (status (order_A pending)) = true) as Hact by reflexivity.
  split; [exact Hin|]. split; [exact Hact|].
  exact (position_within_queue (order_A pending) ann_waiting Hin Hact).
Defined.

Lemma position_never_worsens_witness :
  ids_unique ann_waiting /\ chronological ann_waiting
  /\ order_A pending ∈ orders ann_waiting
  /\ exists o',
       List.find (has_id id_A) (orders ann_preparing) = Some o'
       /\ (getQueuePosition o' ann_preparing
           <= getQueuePosition (order_A pending) ann_waiting)%nat.
Proof.
  assert (ids_unique ann_waiting) as Hids.
  { unfold ids_unique. apply (bool_decide_unpack _). vm_compute. exact I. }
  assert (chronological ann_waiting) as Hchr.
  { vm_compute. split; repeat constructor. intros Hgt. discriminate Hgt. }
  assert (order_A pending ∈ orders ann_waiting) as Hin
    by (vm_compute; apply list_elem_of_here).
  split; [exact Hids|]. split; [exact Hchr|]. split; [exact Hin|].
  exact (position_never_worsens [ Call (PatchStatus staff id_A "preparing") ]
           ann_waiting (order_A pending) Hids Hchr Hin).
Defined.

Lemma from_cart_accepts_witness :
  userAuth cy = inr id_user
  /\ carts shop !! id_user = Some [ two_teas ]
  /\ exists o q,
       fst (post_from_cart cy id_A shop) = Json 201 (BOrderPos o (Some q))
       /\ userId o = Some id_user
       /\ length (items o) = 1%nat.
Proof.
  assert (userAuth cy = inr id_user) as Hu by reflexivity.
  assert (users shop !! id_user = Some {| u_name := "Cy"; u_phone := "0123456789" |})
    as Huser by (vm_compute; reflexivity).
  assert (carts shop !! id_user = Some [ two_teas ]) as Hcart
    by (vm_compute; reflexivity).
  assert ([ two_teas ] <> []) as Hne by discriminate.
  assert (Forall (fun it => exists m, menu shop !! ci_menuItemId it = Some m
                                      /\ m_isAvailable m = true) [ two_teas ])
    as Hitems.
  { constructor; [|constructor].
    exists tea. split; [vm_compute; reflexivity|reflexivity]. }
  assert (List.find (has_id id_A) (orders shop) = None) as Hnew by reflexivity.
  split; [exact Hu|]. split; [exact Hcart|].
  destruct (from_cart_accepts cy id_user _ [ two_teas ] id_A shop
              Hu Huser Hcart Hne Hitems Hnew)
    as (o & q & Hr & _ & _ & _ & Hown & _ & Hlen).
  exists o, q. split; [exact Hr|]. split; [exact Hown|exact Hlen].
Defined.

Lemma from_cart_empties_the_cart_witness :
  userAuth cy = inr id_user
  /\ fst (post_from_cart cy id_A shop) = Json 201 (BOrderPos order_cy (Some 1%nat))
  /\ carts (snd (post_from_cart cy id_A shop)) !! id_user = Some [].
Proof.
  assert (userAuth cy = inr id_user) as Hu by reflexivity.
  assert (fst (post_from_cart cy id_A shop)
          = Json 201 (BOrderPos order_cy (Some 1%nat))) as Hok
    by (vm_compute; reflexivity).
  split; [exact Hu|]. split; [exact Hok|].
  pose proof (from_cart_empties_the_cart cy id_user id_A shop _ _ Hu Hok) as Hthm.
  cbv zeta in Hthm. destruct Hthm as (Hempty & _). exact Hempty.
Defined.

Lemma my_listing_is_private_witness :
  userAuth cy = inr id_user
  /\ exists listed,
       fst (get_my cy None (snd (post_from_cart cy id_A ann_waiting)))
       = Json 200 (BMyOrders listed)
       /\ Forall (fun row => userId (fst row) = Some id_user) listed.
Proof.
  assert (userAuth cy = inr id_user) as Hu by reflexivity.
  split; [exact Hu|].
  destruct (my_listing_is_private cy id_user None
              (snd (post_from_cart cy id_A ann_waiting)) Hu)
    as (listed & Hr & Hall).
  exists listed. split; [exact Hr|].
  eapply Forall_impl; [exact Hall|]. intros row (_ & Hown & _). exact Hown.
Defined.

Lemma staff_list_is_the_snapshot_witness :
  auth staff = None
  /\ exists listed,
       get_orders staff ann_waiting = (Json 200 (BOrders listed), ann_waiting)
       /\ length listed = length (active_set ann_waiting).
Proof.
  assert (auth staff = None) as Ha by reflexivity.
  split; [exact Ha|].
  destruct (staff_list_is_the_snapshot staff ann_waiting Ha)
    as (listed & Hr & _ & Hlen & _).
  exists listed. split; [exact Hr|exact Hlen].
Defined.

Lemma my_route_is_shadowed_witness :
  valid_oid "my" = false
  /\ dispatch GET ["my"] = Some r_get_order
  /\ get_order "my" shop = (Unhandled, shop).
Proof.
  assert (valid_oid "my" = false) as Hmy by reflexivity.
  split; [exact Hmy|].
  destruct (my_route_is_shadowed shop Hmy) as (_ & Hd & Hr & _).
  split; [exact Hd|exact Hr].
Defined.

Lemma public_menu_is_the_available_part_witness :
  auth staff = None /\ valid_oid id_tea = true /\ menu shop !! id_tea = Some tea
  /\ (tea ∈ get_menu shop <-> m_isAvailable tea = true)
  /\ get_menu_item id_tea shop = Json 200 (BMenuItem tea).
Proof.
  assert (auth staff = None) as Ha by reflexivity.
  assert (valid_oid id_tea = true) as Hid by (vm_compute; reflexivity).
  assert (menu shop !! id_tea = Some tea) as Hm by (vm_compute; reflexivity).
  split; [exact Ha|]. split; [exact Hid|]. split; [exact Hm|].
  destruct (public_menu_is_the_available_part staff id_tea tea shop Ha Hid Hm)
    as (_ & _ & Hpub & Hget).
  split; [exact Hpub|exact Hget].
Defined.

Lemma created_menu_item_is_found_witness :
  fst (post_menu boss new_cake id_cake shop) = Json 201 (BMenuItem cake)
  /\ valid_oid id_cake = true
  /\ get_menu_item id_cake (snd (post_menu boss new_cake id_cake shop))
     = Json 200 (BMenuItem cake).
Proof.
  assert (fst (post_menu boss new_cake id_cake shop) = Json 201 (BMenuItem cake))
    as Hok by (vm_compute; reflexivity).
  assert (valid_oid id_cake = true) as Hid by (vm_compute; reflexivity).
  split; [exact Hok|]. split; [exact Hid|].
  pose proof (created_menu_item_is_found boss new_cake id_cake shop cake Hok Hid)
    as Hthm.
  cbv zeta in Hthm. destruct Hthm as (Hget & _). exact Hget.
Defined.

Lemma deleted_menu_item_is_gone_witness :
  fst (delete_menu boss id_tea shop) = Json 200 (BMessage "Menu item deleted.")
  /\ get_menu_item id_tea (snd (delete_menu boss id_tea shop))
     = Json 404 (BMessage "Menu item not found.")
  /\ refused (fst (post_order (one_tea "Ann") id_A (snd (delete_menu boss id_tea shop)))).
Proof.
  assert (fst (delete_menu boss id_tea shop)
          = Json 200 (BMessage "Menu item deleted.")) as Hok
    by (vm_compute; reflexivity).
  split; [exact Hok|].
  pose proof (deleted_menu_item_is_gone boss id_tea shop _ Hok) as Hthm.
  cbv zeta in Hthm. destruct Hthm as (Hget & _ & Hord & _).
  split; [exact Hget|].
  apply (Hord (one_tea "Ann") id_A). constructor. reflexivity.
Defined.



Lemma cart_update_and_remove_witness :
  userAuth cy = inr id_user
  /\ carts shop !! id_user = Some [ two_teas ]
  /\ isInt_min1 5 = true
  /\ carts (snd (cart_remove whole cy id_tea shop)) !! id_user
     = Some (List.filter (fun i => negb (in_cart id_tea i)) [ two_teas ]).
Proof.
  assert (userAuth cy = inr id_user) as Hu by reflexivity.
  assert (carts shop !! id_user = Some [ two_teas ]) as Hcart
    by (vm_compute; reflexivity).
  assert (isInt_min1 5 = true) as Hq by reflexivity.
  split; [exact Hu|]. split; [exact Hcart|]. split; [exact Hq|].
  destruct (cart_update_and_remove whole cy id_user id_tea 5 [ two_teas ] shop
              Hu Hcart Hq) as (_ & Hin).
  apply Hin. apply list_elem_of_here.
Defined.


Lemma cart_view_hides_deleted_items_witness :
  userAuth cy = inr id_user
  /\ carts shop_without_tea !! id_user = Some [ two_teas ]
  /\ Exists (fun it => menu shop_without_tea !! ci_menuItemId it = None) [ two_teas ]
  /\ refused (fst (post_from_cart cy id_A shop_without_tea))
  /\ snd (post_from_cart cy id_A shop_without_tea) = shop_without_tea.
Proof.
  assert (userAuth cy = inr id_user) as Hu by reflexivity.
  assert (users shop_without_tea !! id_user
          = Some {| u_name := "Cy"; u_phone := "0123456789" |})
    as Huser by (vm_compute; reflexivity).
  assert (carts shop_without_tea !! id_user = Some [ two_teas ]) as Hcart
    by (vm_compute; reflexivity).
  assert (Exists (fun it => menu shop_without_tea !! ci_menuItemId it = None)
                 [ two_teas ]) as Hgone
    by (constructor; vm_compute; reflexivity).
  split; [exact Hu|]. split; [exact Hcart|]. split; [exact Hgone|].
  destruct (cart_view_hides_deleted_items whole cy id_user _ [ two_teas ] id_A
              shop_without_tea Hu Huser Hcart Hgone) as (_ & Hrefused & Hsame).
  split; [exact Hrefused|exact Hsame].
Defined.

Lemma cart_total_is_order_total_witness :
  fst (post_from_cart cy id_A shop) = Json 201 (BOrderPos order_cy (Some 1%nat))
  /\ exists v,
       cart_get whole cy shop = (View v, shop)
       /\ cv_grandTotal v = whole (totalAmount order_cy).
Proof.
  assert (fst (post_from_cart cy id_A shop)
          = Json 201 (BOrderPos order_cy (Some 1%nat))) as Hok
    by (vm_compute; reflexivity).
  split; [exact Hok|].
  destruct (cart_total_is_order_total whole cy id_A shop _ _ Hok)
    as (v & Hget & Htotal & _).
  exists v. split; [exact Hget|exact Htotal].
Defined.

Lemma deleted_account_keeps_its_orders_witness :
  userAuth cy = inr id_user
  /\ orders (snd (delete_me cy (snd (post_from_cart cy id_A shop))))
     = orders (snd (post_from_cart cy id_A shop))
  /\ users (snd (delete_me cy (snd (post_from_cart cy id_A shop)))) !! id_user
     = None.
Proof.
  assert (userAuth cy = inr id_user) as Hu by reflexivity.
  split; [exact Hu|].
  pose proof (deleted_account_keeps_its_orders cy id_user
                (snd (post_from_cart cy id_A shop)) Hu) as Hthm.
  cbv zeta in Hthm. destruct Hthm as (_ & Huser & _ & _ & Hord & _).
  split; [exact Hord|exact Huser].
Defined.

Lemma nothing_published_offline_witness :
  io shop_offline = None /\ Forall not_init three_spaced
  /\ outbox (run three_spaced shop_offline) = outbox shop_offline.
Proof.
  assert (io shop_offline = None) as Hio by reflexivity.
  assert (Forall not_init three_spaced) as Hes by (repeat constructor).
  split; [exact Hio|]. split; [exact Hes|].
  destruct (nothing_published_offline three_spaced shop_offline Hio Hes)
    as (_ & Hout & _).
  exact Hout.
Defined.

Lemma broadcast_exactly_on_change_witness :
  io shop = Some (fun _ => true)
  /\ in_flight (snd (handle (PostOrder (one_tea "Ann") id_A) shop)) = 1%nat.
Proof.
  assert (io shop = Some (fun _ => true)) as Hio by reflexivity.
  split; [exact Hio|].
  destruct (broadcast_exactly_on_change (PostOrder (one_tea "Ann") id_A) shop _ Hio)
    as (_ & Hchanged).
  apply Hchanged. vm_compute. discriminate.
Defined.
